(** * PendingBlock: the pending-payload registry and its inclusion pass

    A shallow embedding of the [PendingBlock] class of the client's miner
    (methods [start], [stop] and [build]) together with the properties its
    specification states.

    The class orchestrates collaborators that live in other packages: the VM
    with its block builder, the transaction pool and the blockchain.  Their
    operations are the fields of the [Collaborators] class below; every
    awaited call may change the outside world and may throw, and the
    properties hold for all of them.  The methods themselves are written in
    a small state-and-exception monad that also records, in order, which
    calls were made.

    Conventions of the embedding:
    - a [bigint] is a [Z], a [Buffer] a list of bytes;
    - getters and [hash()] are reads that cannot fail, the logger records
      its message and does nothing else;
    - [void builder.revert()] makes the call and drops what becomes of it;
    - one call of a method is followed from its first statement to its
      return: two calls interleaved at an [await] are not modelled. *)

From Stdlib Require Import ZArith List String Bool Lia.
From Stdlib Require Import Sorted Permutation.
From Stdlib Require Strings.Byte.
From Stdlib Require Import Ascii.
From Stdlib Require HexString.
From stdpp Require Import base decidable list.
Import ListNotations.
Local Open Scope Z_scope.

(** ** Data *)

(** A Node.js [Buffer]; [a.equals(b)] is byte-wise equality. *)
Definition Buffer := list Byte.byte.

#[global] Instance byte_eq_dec : EqDecision Byte.byte := Byte.byte_eq_dec.

Definition Buffer_equals (a b : Buffer) : bool := bool_decide (a = b).

(** A JavaScript [Error]; only its [message] is inspected. *)
Record Error := mkError { message : string }.

(** How a call ends: it returns a value or it throws. *)
Inductive Outcome (A : Type) :=
| Return (a : A)
| Throw (e : Error).
Arguments Return {A} a.
Arguments Throw {A} e.

(** The header fields handed to [vm.buildBlock]:
    [{ ...headerData, number, gasLimit, baseFeePerGas }].  The three named
    keys overwrite whatever the caller's overrides carried; [baseFeePerGas]
    may be [undefined]. *)
Record HeaderData (Overrides : Type) := mkHeaderData {
  overrides : Overrides;
  number : Z;
  gasLimit : Z;
  baseFeePerGas : option Z
}.
Arguments mkHeaderData {Overrides}.
Arguments overrides {Overrides}.
Arguments number {Overrides}.
Arguments gasLimit {Overrides}.
Arguments baseFeePerGas {Overrides}.

Record BlockOpts := mkBlockOpts {
  putBlockIntoBlockchain : bool;
  hardforkByTTD : Z
}.

Record BuildBlockOpts (Block Overrides Withdrawals : Type) := mkBuildBlockOpts {
  parentBlock : Block;
  headerData : HeaderData Overrides;
  withdrawals : option Withdrawals;
  blockOpts : BlockOpts
}.
Arguments mkBuildBlockOpts {Block Overrides Withdrawals}.
Arguments parentBlock {Block Overrides Withdrawals}.
Arguments headerData {Block Overrides Withdrawals}.
Arguments withdrawals {Block Overrides Withdrawals}.
Arguments blockOpts {Block Overrides Withdrawals}.

(** ** Collaborators

    Everything [PendingBlock] imports as a type: the VM, its block builder,
    the pool, blocks and transactions.  [World] is the state of all of them;
    an operation that is awaited maps a world to a new world and an outcome,
    a getter reads the world. *)
Class Collaborators := {
  World : Type;
  VM : Type;
  TxPool : Type;
  BlockBuilder : Type;
  TypedTransaction : Type;
  Block : Type;
  TxReceipt : Type;
  HeaderOverrides : Type;
  WithdrawalData : Type;
  (* parentBlock.header.number, .gasLimit, .stateRoot, .calcNextBaseFee() *)
  header_number : Block -> Z;
  header_gasLimit : Block -> Z;
  header_stateRoot : Block -> Buffer;
  calcNextBaseFee : Block -> Outcome Z;
  (* block.hash(), tx.hash() *)
  block_hash : Block -> Buffer;
  tx_hash : TypedTransaction -> Buffer;
  (* vm._common.isActivatedEIP(n) *)
  isActivatedEIP : VM -> Z -> World -> bool;
  (* vm.eei.setStateRoot(root) *)
  setStateRoot : VM -> Buffer -> World -> World * Outcome unit;
  (* vm.blockchain.getTotalDifficulty, when the blockchain has it *)
  getTotalDifficulty : VM -> option (Buffer -> World -> World * Outcome Z);
  (* vm.buildBlock(opts) *)
  buildBlock :
    VM -> BuildBlockOpts Block HeaderOverrides (list WithdrawalData) ->
    World -> World * Outcome BlockBuilder;
  (* crypto.randomBytes(n) *)
  randomBytes : nat -> World -> World * Buffer;
  (* txPool.txsByPriceAndNonce(vm, baseFee) *)
  txsByPriceAndNonce :
    TxPool -> VM -> option Z -> World -> World * Outcome (list TypedTransaction);
  (* builder.addTransaction(tx), .build(), .revert() *)
  addTransaction : BlockBuilder -> TypedTransaction -> World -> World * Outcome unit;
  builder_build : BlockBuilder -> World -> World * Outcome Block;
  builder_revert : BlockBuilder -> World -> World * Outcome unit;
  (* builder.gasUsed, .transactions, .headerData, .vm, .transactionReceipts *)
  gasUsed : BlockBuilder -> World -> Z;
  transactions : BlockBuilder -> World -> list TypedTransaction;
  builder_headerData : BlockBuilder -> World -> HeaderData HeaderOverrides;
  builder_vm : BlockBuilder -> World -> VM;
  transactionReceipts : BlockBuilder -> World -> list TxReceipt
}.

Section PendingBlock.
Context `{C : Collaborators}.

(** ** The object and its effects *)

(** The fields of the class ([config] only supplies the logger). *)
Record PendingBlock := mkPendingBlock {
  txPool : TxPool;
  pendingPayloads : list (Buffer * BlockBuilder)
}.

Record State := mkState {
  world : World;
  this : PendingBlock
}.

(** What the logger is given. *)
Inductive LogMessage :=
| Assembling (eligible : nat) (baseFee : option Z)
| AssembledFull (gasLeft : option Z)
| Adding (eligible : nat)
| Skipping (txHash : Buffer) (error : Error)
| Built (block : Block).

(** The calls made on collaborators, as they happen. *)
Inductive Event :=
| Call_setStateRoot (vm : VM) (root : Buffer)
| Call_getTotalDifficulty (vm : VM) (hash : Buffer)
| Call_buildBlock (vm : VM)
    (opts : BuildBlockOpts Block HeaderOverrides (list WithdrawalData))
| Call_randomBytes (n : nat)
| Call_txsByPriceAndNonce (pool : TxPool) (vm : VM) (baseFee : option Z)
| Call_addTransaction (builder : BlockBuilder) (tx : TypedTransaction)
| Call_build (builder : BlockBuilder)
| Call_revert (builder : BlockBuilder)
| Log_info (msg : LogMessage)
| Log_debug (msg : LogMessage).

(** A finished computation: how it ended, the state it left and the calls
    it made. *)
Record Res (A : Type) := mkRes {
  outcome : Outcome A;
  final : State;
  events : list Event
}.
Arguments mkRes {A}.
Arguments outcome {A}.
Arguments final {A}.
Arguments events {A}.

Definition M (A : Type) := State -> Res A.

Definition ret {A} (a : A) : M A := fun st => mkRes (Return a) st [].

Definition throw {A} (e : Error) : M A := fun st => mkRes (Throw e) st [].

(** A result with further calls made before it. *)
Definition after {A} (evs : list Event) (r : Res A) : Res A :=
  match r with
  | mkRes o st evs' => mkRes o st (evs ++ evs')
  end.

Definition bind {A B} (m : M A) (k : A -> M B) : M B := fun st =>
  match m st with
  | mkRes (Return a) st' evs => after evs (k a st')
  | mkRes (Throw e) st' evs => mkRes (Throw e) st' evs
  end.

(** [try { body } catch (error) { handler }] *)
Definition try_catch {A} (body : M A) (handler : Error -> M A) : M A := fun st =>
  match body st with
  | mkRes (Return a) st' evs => mkRes (Return a) st' evs
  | mkRes (Throw e) st' evs => after evs (handler e st')
  end.

(** An awaited call on a collaborator. *)
Definition call {A} (ev : Event) (f : World -> World * Outcome A) : M A := fun st =>
  let (w, o) := f (world st) in
  mkRes o (mkState w (this st)) [ev].

(** A getter. *)
Definition read {A} (f : World -> A) : M A := fun st => mkRes (Return (f (world st))) st [].

Definition log_info (msg : LogMessage) : M unit := fun st => mkRes (Return tt) st [Log_info msg].

Definition log_debug (msg : LogMessage) : M unit := fun st => mkRes (Return tt) st [Log_debug msg].

Definition get_this : M PendingBlock := fun st => mkRes (Return (this st)) st [].

Definition set_pendingPayloads (l : list (Buffer * BlockBuilder)) : M unit := fun st =>
  mkRes (Return tt) (mkState (world st) (mkPendingBlock (txPool (this st)) l)) [].

Declare Scope pb_scope.
Delimit Scope pb_scope with pb.
Notation "x <- m ;; k" := (bind m (fun x => k))
  (at level 100, m at next level, right associativity) : pb_scope.
Notation "m ;;; k" := (bind m (fun _ => k))
  (at level 100, right associativity) : pb_scope.
Local Open Scope pb_scope.

(** ** The inclusion pass

    The [while (index < txs.length && !blockFull)] loop of [start] and of
    [build], by recursion on the candidates that remain.  The two copies
    differ in where the block gas limit is read ([start]: the parent's, held
    in a local; [build]: [builder.headerData.gasLimit], read in the handler)
    and in the text logged when the block is full. *)

Definition gasLimitExceeded : string :=
  "tx has a higher gas limit than the remaining gas in the block".

(** The [catch (error)] block; its value is the new [blockFull]. *)
Definition onAddError (builder : BlockBuilder) (limit : World -> Z)
    (full : Z -> Z -> LogMessage) (tx : TypedTransaction) (error : Error) : M bool :=
  if String.eqb (message error) gasLimitExceeded then
    used <- read (gasUsed builder) ;;
    lim <- read limit ;;
    if used >? lim - 21000 then
      (* If block has less than 21000 gas remaining, consider it full *)
      log_info (full lim used) ;;;
      ret true
    else ret false
  else
    (* If there is an error adding a tx, it will be skipped *)
    log_debug (Skipping (tx_hash tx) error) ;;;
    ret false.

Fixpoint addTxs (builder : BlockBuilder) (limit : World -> Z)
    (full : Z -> Z -> LogMessage) (txs : list TypedTransaction) : M unit :=
  match txs with
  | [] => ret tt
  | tx :: rest =>
      blockFull <-
        try_catch
          (call (Call_addTransaction builder tx) (addTransaction builder tx) ;;;
           ret false)
          (onAddError builder limit full tx) ;;
      if blockFull : bool then ret tt else addTxs builder limit full rest
  end.

(** The loop of [start]: the gas limit is the local [gasLimit], the
    parent's, and the gas left is logged. *)
Definition seed (builder : BlockBuilder) (parent : Block) (txs : list TypedTransaction)
  : M unit :=
  addTxs builder (fun _ => header_gasLimit parent)
    (fun lim used => AssembledFull (Some (lim - used))) txs.

(** The loop of [build]: the gas limit is [builder.headerData.gasLimit]. *)
Definition topUp (builder : BlockBuilder) (txs : list TypedTransaction) : M unit :=
  addTxs builder (fun w => gasLimit (builder_headerData builder w))
    (fun _ _ => AssembledFull None) txs.

(** ** start *)

Definition noTotalDifficulty : string :=
  "cannot get iterator head: blockchain has no getTotalDifficulty function".

Definition lift {A} (o : Outcome A) : M A := fun st => mkRes o st [].

Definition start (vm : VM) (parent : Block) (headerOverrides : HeaderOverrides)
    (wds : option (list WithdrawalData)) : M Buffer :=
  let number := header_number parent + 1 in
  let gasLimit := header_gasLimit parent in
  (* vm._common.isActivatedEIP(1559) === true ? calcNextBaseFee() : undefined *)
  active <- read (isActivatedEIP vm 1559) ;;
  baseFeePerGas <-
    (if active : bool then fee <- lift (calcNextBaseFee parent) ;; ret (Some fee)
     else ret None) ;;
  (* Set the state root to ensure the resulting state
     is based on the parent block's state *)
  call (Call_setStateRoot vm (header_stateRoot parent))
       (setStateRoot vm (header_stateRoot parent)) ;;;
  match getTotalDifficulty vm with
  | None => throw (mkError noTotalDifficulty)
  | Some getTD =>
      td <- call (Call_getTotalDifficulty vm (block_hash parent))
                 (getTD (block_hash parent)) ;;
      let opts :=
        mkBuildBlockOpts parent
          (mkHeaderData headerOverrides number gasLimit baseFeePerGas)
          wds
          (mkBlockOpts false td) in
      builder <- call (Call_buildBlock vm opts) (buildBlock vm opts) ;;
      payloadId <- call (Call_randomBytes 8)
                        (fun w => let (w', b) := randomBytes 8 w in (w', Return b)) ;;
      self <- get_this ;;
      set_pendingPayloads (pendingPayloads self ++ [(payloadId, builder)]) ;;;
      (* Add current txs in pool *)
      txs <- call (Call_txsByPriceAndNonce (txPool self) vm baseFeePerGas)
                  (txsByPriceAndNonce (txPool self) vm baseFeePerGas) ;;
      log_info (Assembling (length txs) baseFeePerGas) ;;;
      seed builder parent txs ;;;
      ret payloadId
  end.

(** ** stop *)

Definition findPayload (payloadId : Buffer) (l : list (Buffer * BlockBuilder))
  : option (Buffer * BlockBuilder) :=
  List.find (fun p => Buffer_equals (fst p) payloadId) l.

Definition removePayload (payloadId : Buffer) (l : list (Buffer * BlockBuilder))
  : list (Buffer * BlockBuilder) :=
  List.filter (fun p => negb (Buffer_equals (fst p) payloadId)) l.

(** [void promise]: the call is made, what becomes of it is dropped. *)
Definition void {A} (m : M A) : M unit := fun st =>
  match m st with
  | mkRes _ st' evs => mkRes (Return tt) st' evs
  end.

Definition stop (payloadId : Buffer) : M unit :=
  self <- get_this ;;
  match findPayload payloadId (pendingPayloads self) with
  | None => ret tt
  | Some payload =>
      (* Revert blockBuilder *)
      void (call (Call_revert (snd payload)) (builder_revert (snd payload))) ;;;
      (* Remove from pendingPayloads *)
      self <- get_this ;;
      set_pendingPayloads (removePayload payloadId (pendingPayloads self))
  end.

(** ** build *)

Definition notIncluded (included : list TypedTransaction) (tx : TypedTransaction) : bool :=
  Bool.eqb (existsb (fun t => Buffer_equals (tx_hash t) (tx_hash tx)) included) false.

Definition build (payloadId : Buffer) : M (option (Block * list TxReceipt)) :=
  self <- get_this ;;
  match findPayload payloadId (pendingPayloads self) with
  | None => ret None
  | Some payload =>
      let builder := snd payload in
      vm <- read (builder_vm builder) ;;
      hd <- read (builder_headerData builder) ;;
      (* Add new txs that the pool received *)
      pool <- call (Call_txsByPriceAndNonce (txPool self) vm (baseFeePerGas hd))
                   (txsByPriceAndNonce (txPool self) vm (baseFeePerGas hd)) ;;
      included <- read (transactions builder) ;;
      let txs := List.filter (notIncluded included) pool in
      log_info (Adding (length txs)) ;;;
      topUp builder txs ;;;
      block <- call (Call_build builder) (builder_build builder) ;;
      log_info (Built block) ;;;
      (* Remove from pendingPayloads *)
      self <- get_this ;;
      set_pendingPayloads (removePayload payloadId (pendingPayloads self)) ;;;
      receipts <- read (transactionReceipts builder) ;;
      ret (Some (block, receipts))
  end.

(** ** Vocabulary for the properties *)

(** The candidates [build] keeps from the pool's answer [pool], the builder
    being read in world [w]. *)
Definition topUpTxs (builder : BlockBuilder) (pool : list TypedTransaction) (w : World)
  : list TypedTransaction :=
  List.filter (notIncluded (transactions builder w)) pool.

(** The base fee [start] computes before it touches the engine. *)
Definition nextBaseFee (vm : VM) (parent : Block) (w : World) : Outcome (option Z) :=
  if isActivatedEIP vm 1559 w then
    match calcNextBaseFee parent with
    | Return fee => Return (Some fee)
    | Throw e => Throw e
    end
  else Return None.

(** The options [start] hands to [vm.buildBlock]. *)
Definition startOpts (parent : Block) (headerOverrides : HeaderOverrides)
    (wds : option (list WithdrawalData)) (baseFee : option Z) (td : Z)
  : BuildBlockOpts Block HeaderOverrides (list WithdrawalData) :=
  mkBuildBlockOpts parent
    (mkHeaderData headerOverrides (header_number parent + 1) (header_gasLimit parent) baseFee)
    wds (mkBlockOpts false td).

(** Some entry of the registry carries this identifier. *)
Definition registered (payloadId : Buffer) (l : list (Buffer * BlockBuilder)) : Prop :=
  exists p, In p l /\ Buffer_equals (fst p) payloadId = true.


(** The calls a pass may make: [addTransaction] on its own builder with one
    of its candidates, and the logger. *)
Definition passEvent (builder : BlockBuilder) (txs : list TypedTransaction)
    (ev : Event) : Prop :=
  match ev with
  | Call_addTransaction b tx => b = builder /\ In tx txs
  | Log_info (AssembledFull _) => True
  | Log_debug (Skipping _ _) => True
  | _ => False
  end.

Definition isAddTransaction (ev : Event) : bool :=
  match ev with Call_addTransaction _ _ => true | _ => false end.

Definition isBuildBlock (ev : Event) : bool :=
  match ev with Call_buildBlock _ _ => true | _ => false end.

Definition isFinalize (ev : Event) : bool :=
  match ev with Call_build _ => true | _ => false end.

Definition isRevert (ev : Event) : bool :=
  match ev with Call_revert _ => true | _ => false end.

Definition isFullLog (ev : Event) : bool :=
  match ev with Log_info (AssembledFull _) => true | _ => false end.

End PendingBlock.

Arguments mkRes {C A}.
Arguments outcome {C A}.
Arguments final {C A}.
Arguments events {C A}.

(** * A reference environment

    A small, concrete set of collaborators on which the methods can be run;
    the inputs of the examples further down are built from it.  A builder is
    a position in the world's list of builders, so that the registry and the
    engine share it by reference. *)
Module Ref.

Record Tx := mkTx {
  txHash : Buffer;
  txGasLimit : Z;
  txGasSpent : Z;
  txRejection : option string
}.

Record Blk := mkBlk {
  blkNumber : Z;
  blkGasLimit : Z;
  blkStateRoot : Buffer;
  blkHash : Buffer;
  blkNextBaseFee : Outcome Z;
  blkTxs : list Tx
}.

Record Builder := mkBuilder {
  bHeader : HeaderData unit;
  bGasUsed : Z;
  bTxs : list Tx
}.

Record Vm := mkVm { hasTotalDifficulty : bool }.

Record Wld := mkWld {
  stateRoot : Buffer;
  london : bool;
  builders : list Builder;
  mempool : list Tx;
  entropy : list Buffer;
  finalizeFails : bool;
  revertFails : bool
}.

Definition withStateRoot (root : Buffer) (w : Wld) : Wld :=
  mkWld root (london w) (builders w) (mempool w) (entropy w) (finalizeFails w) (revertFails w).

Definition withBuilders (bs : list Builder) (w : Wld) : Wld :=
  mkWld (stateRoot w) (london w) bs (mempool w) (entropy w) (finalizeFails w) (revertFails w).

Definition withEntropy (ids : list Buffer) (w : Wld) : Wld :=
  mkWld (stateRoot w) (london w) (builders w) (mempool w) ids (finalizeFails w) (revertFails w).

Definition emptyBuilder : Builder := mkBuilder (mkHeaderData tt 0 0 None) 0 [].

Definition builderAt (b : nat) (w : Wld) : Builder :=
  default emptyBuilder (builders w !! b).

(** Modelled from the spec: the builder's [addTransaction], which is not
    among these sources.  It fails with the distinguishable
    exceeds-remaining-block-gas condition when the transaction's gas limit is
    above the gas that remains, with another error when the transaction is
    invalid, and otherwise appends the transaction and adds its gas to
    [gasUsed]. *)
Definition refAddTransaction (b : nat) (tx : Tx) (w : Wld) : Wld * Outcome unit :=
  let bl := builderAt b w in
  if txGasLimit tx >? gasLimit (bHeader bl) - bGasUsed bl then
    (w, Throw (mkError gasLimitExceeded))
  else
    match txRejection tx with
    | Some msg => (w, Throw (mkError msg))
    | None =>
        (withBuilders
           (<[b := mkBuilder (bHeader bl) (bGasUsed bl + txGasSpent tx) (bTxs bl ++ [tx])]>
              (builders w)) w,
         Return tt)
    end.

(** Modelled from the spec: [vm.buildBlock], which returns a new,
    exclusively owned builder handle holding the header fields it was
    given. *)
Definition refBuildBlock (vm : Vm) (opts : BuildBlockOpts Blk unit (list unit)) (w : Wld)
  : Wld * Outcome nat :=
  (withBuilders (builders w ++ [mkBuilder (headerData opts) 0 []]) w,
   Return (length (builders w))).

(** Modelled from the spec: the source of 8-byte identifiers, here a
    supply the world carries. *)
Definition refRandomBytes (n : nat) (w : Wld) : Wld * Buffer :=
  match entropy w with
  | id :: ids => (withEntropy ids w, id)
  | [] => (w, repeat Byte.x00 n)
  end.

(** Modelled from the spec: the builder's [build], which returns the
    finalized block or fails fatally. *)
Definition refBuild (b : nat) (w : Wld) : Wld * Outcome Blk :=
  if finalizeFails w then (w, Throw (mkError "finalize failed"))
  else
    let bl := builderAt b w in
    (w, Return (mkBlk (number (bHeader bl)) (gasLimit (bHeader bl)) (stateRoot w) []
                  (Return 0) (bTxs bl))).

(** Modelled from the spec: the builder's [revert], a best-effort discard
    whose outcome need not be observable. *)
Definition refRevert (b : nat) (w : Wld) : Wld * Outcome unit :=
  (w, if revertFails w then Throw (mkError "revert failed") else Return tt).

(** Modelled from the spec: the Execution Engine, the Mempool Supplier and
    the Chain-State Provider of its section 6 (the VM's block builder, the
    transaction pool and the blockchain), whose code is not among these
    sources.  The pool returns its candidates in order; the upgrade is a
    flag of the world; the blockchain has [getTotalDifficulty] or not. *)
Definition env : Collaborators := {|
  World := Wld;
  VM := Vm;
  TxPool := unit;
  BlockBuilder := nat;
  TypedTransaction := Tx;
  Block := Blk;
  TxReceipt := Buffer;
  HeaderOverrides := unit;
  WithdrawalData := unit;
  header_number := blkNumber;
  header_gasLimit := blkGasLimit;
  header_stateRoot := blkStateRoot;
  calcNextBaseFee := blkNextBaseFee;
  block_hash := blkHash;
  tx_hash := txHash;
  isActivatedEIP := fun _ eip w => london w && (eip =? 1559);
  setStateRoot := fun _ root w => (withStateRoot root w, Return tt);
  getTotalDifficulty := fun vm =>
    if hasTotalDifficulty vm then Some (fun _ w => (w, Return 0)) else None;
  buildBlock := refBuildBlock;
  randomBytes := refRandomBytes;
  txsByPriceAndNonce := fun _ _ _ w => (w, Return (mempool w));
  addTransaction := refAddTransaction;
  builder_build := refBuild;
  builder_revert := refRevert;
  gasUsed := fun b w => bGasUsed (builderAt b w);
  transactions := fun b w => bTxs (builderAt b w);
  builder_headerData := fun b w => bHeader (builderAt b w);
  builder_vm := fun _ _ => mkVm true;
  transactionReceipts := fun b w => map txHash (bTxs (builderAt b w))
|}.

(** Inputs. *)
Definition id1 : Buffer :=
  [Byte.x01; Byte.x02; Byte.x03; Byte.x04; Byte.x05; Byte.x06; Byte.x07; Byte.x08].
Definition idUnknown : Buffer :=
  [Byte.xff; Byte.xff; Byte.xff; Byte.xff; Byte.xff; Byte.xff; Byte.xff; Byte.xff].

Definition parent : Blk :=
  mkBlk 100 30000000 [Byte.xaa] [Byte.xbb] (Return 7) [].

Definition tx (h : Byte.byte) (gas : Z) : Tx := mkTx [h] gas gas None.
Definition badTx (h : Byte.byte) (gas : Z) : Tx := mkTx [h] gas gas (Some "invalid nonce"%string).

Definition worldWith (pool : list Tx) (ids : list Buffer) : Wld :=
  mkWld [] true [] pool ids false false.

Definition fresh (w : Wld) : State (C := env) :=
  mkState (C := env) w (mkPendingBlock (C := env) tt []).

Definition withPool (pool : list Tx) (st : State (C := env)) : State (C := env) :=
  let w := world st in
  mkState (C := env)
    (mkWld (stateRoot w) (london w) (builders w) pool (entropy w) (finalizeFails w)
       (revertFails w))
    (this st).

Definition withFailures (fin rev : bool) (st : State (C := env)) : State (C := env) :=
  let w := world st in
  mkState (C := env)
    (mkWld (stateRoot w) (london w) (builders w) (mempool w) (entropy w) fin rev)
    (this st).

Definition vm : Vm := mkVm true.

Definition started (pool : list Tx) (ids : list Buffer) : Res (C := env) Buffer :=
  start (C := env) vm parent tt None (fresh (worldWith pool ids)).

(** Transactions of the examples. *)
Definition t1 : Tx := tx Byte.x01 10000000.
Definition t2 : Tx := tx Byte.x02 10000000.
Definition t3 : Tx := tx Byte.x03 15000000.
Definition t4 : Tx := tx Byte.x04 5000000.
Definition txA : Tx := tx Byte.x0a 29979000.
Definition txB : Tx := tx Byte.x0b 29999000.
Definition txC : Tx := tx Byte.x0c 21000.
Definition txD : Tx := tx Byte.x0d 29980000.
Definition txBad : Tx := badTx Byte.x0e 21000.

(** The state [start] leaves with [txA] alone in the pool: one payload,
    [id1], whose builder has used 29,979,000 gas of 30,000,000. *)
Definition afterA : State (C := env) := final (started [txA] [id1]).

(** The same with [txD]: 29,980,000 gas used, 20,000 left. *)
Definition afterD : State (C := env) := final (started [txD] [id1]).

(** The state [start] leaves with an empty pool. *)
Definition afterEmpty : State (C := env) := final (started [] [id1]).

(** The state after the first pass of the partial-fill scenario. *)
Definition afterPartial : State (C := env) := final (started [t1; t2; t3] [id1]).

(** Two payloads that were given the same identifier. *)
Definition collided : State (C := env) :=
  final (start (C := env) vm parent tt None (final (started [] [id1; id1]))).

(** A VM whose blockchain has no [getTotalDifficulty]. *)
Definition vmNoTD : Vm := mkVm false.

(** A world before the fee-market upgrade. *)
Definition preLondon : Wld := mkWld [] false [] [] [id1] false false.

(** The block the reference builder seals when it holds no transaction. *)
Definition emptyBlock : Blk := mkBlk 101 30000000 [Byte.xaa] [] (Return 0) [].

(** The options [start] passes for [parent] after the upgrade. *)
Definition parentOpts : BuildBlockOpts Blk unit (list unit) :=
  mkBuildBlockOpts parent (mkHeaderData tt 101 30000000 (Some 7)) None (mkBlockOpts false 0).

End Ref.


(** * The reference environment with the pool out of service *)
Module RefDown.
Import Ref.

Definition poolDown : string := "pool unavailable".

(** Modelled from the spec: the collaborators of [Ref.env] with a Mempool
    Supplier whose query fails. *)
Definition env : Collaborators := {|
  World := Wld;
  VM := Vm;
  TxPool := unit;
  BlockBuilder := nat;
  TypedTransaction := Tx;
  Block := Blk;
  TxReceipt := Buffer;
  HeaderOverrides := unit;
  WithdrawalData := unit;
  header_number := blkNumber;
  header_gasLimit := blkGasLimit;
  header_stateRoot := blkStateRoot;
  calcNextBaseFee := blkNextBaseFee;
  block_hash := blkHash;
  tx_hash := txHash;
  isActivatedEIP := fun _ eip w => london w && (eip =? 1559);
  setStateRoot := fun _ root w => (withStateRoot root w, Return tt);
  getTotalDifficulty := fun vm =>
    if hasTotalDifficulty vm then Some (fun _ w => (w, Return 0)) else None;
  buildBlock := refBuildBlock;
  randomBytes := refRandomBytes;
  txsByPriceAndNonce := fun _ _ _ w => (w, Throw (mkError poolDown));
  addTransaction := refAddTransaction;
  builder_build := refBuild;
  builder_revert := refRevert;
  gasUsed := fun b w => bGasUsed (builderAt b w);
  transactions := fun b w => bTxs (builderAt b w);
  builder_headerData := fun b w => bHeader (builderAt b w);
  builder_vm := fun _ _ => mkVm true;
  transactionReceipts := fun b w => map txHash (bTxs (builderAt b w))
|}.

Definition fresh (w : Wld) : State (C := env) :=
  mkState (C := env) w (mkPendingBlock (C := env) tt []).

(** [start] while the pool is out of service. *)
Definition started : Res (C := env) Buffer :=
  start (C := env) vm parent tt None (fresh (worldWith [t1] [id1])).

End RefDown.

(** Further inputs on the reference environment. *)
Module RefMore.
Import Ref.

Definition id3 : Buffer :=
  [Byte.x31; Byte.x32; Byte.x33; Byte.x34; Byte.x35; Byte.x36; Byte.x37; Byte.x38].

(** Two payloads with different identifiers, [id1] then [id3]. *)
Definition twoPayloads : State (C := env) :=
  final (start (C := env) vm parent tt None (final (started [] [id1; id3]))).

(** The block the reference builder seals in the partial-fill scenario. *)
Definition partialBlock : Blk := mkBlk 101 30000000 [Byte.xaa] [] (Return 0) [t1; t2].

End RefMore.

(** * The fork schedule of a Geth genesis file

    The part of [parseGethParams] (common/src/utils.ts) that computes
    [params.hardforks] from the [config] object of the genesis file. *)
Module GethGenesis.

(** The members of the [Hardfork] enum that [parseGethParams] names. *)
Inductive Hardfork :=
| Chainstart | Homestead | Dao | TangerineWhistle | SpuriousDragon | Byzantium
| Constantinople | Petersburg | Istanbul | MuirGlacier | Berlin | London
| MergeForkIdTransition | Merge | Shanghai.

#[global] Instance Hardfork_eq_dec : EqDecision Hardfork.
Proof. solve_decision. Defined.

(** [config]: its keys in the order [Object.keys] lists them, each with its
    value, a number or [null] ([None]).  Entries with other kinds of value
    (the [clique] object, say) bear no fork name, are dropped by the first
    filter below and are left out of the list. *)
Definition Config := list (string * option Z).

(** [config[key]]; [None] is [undefined]. *)
Fixpoint lookup (key : string) (config : Config) : option (option Z) :=
  match config with
  | [] => None
  | (k, v) :: rest => if String.eqb k key then Some v else lookup key rest
  end.

(** An element of [params.hardforks]: [{ name, block }], and for the merge
    [{ name, ttd, block: null }]. *)
Record HardforkConfig := mkHardfork {
  name : Hardfork;
  block : option Z;
  ttd : option (option Z)
}.

(** [forkMap], in the order it is written: the config field of each fork and
    its [postMerge] flag ([false] where the source gives none). *)
Definition forkMap (mergeForkIdPostMerge : bool) : list (Hardfork * (string * bool)) :=
  [ (Homestead, ("homesteadBlock", false));
    (Dao, ("daoForkBlock", false));
    (TangerineWhistle, ("eip150Block", false));
    (SpuriousDragon, ("eip155Block", false));
    (Byzantium, ("byzantiumBlock", false));
    (Constantinople, ("constantinopleBlock", false));
    (Petersburg, ("petersburgBlock", false));
    (Istanbul, ("istanbulBlock", false));
    (MuirGlacier, ("muirGlacierBlock", false));
    (Berlin, ("berlinBlock", false));
    (London, ("londonBlock", false));
    (MergeForkIdTransition, ("mergeForkBlock", mergeForkIdPostMerge));
    (Shanghai, ("shanghaiBlock", true)) ]%string.

(** [forkMap[hf.name]?.postMerge === true] *)
Definition postMerge (mergeForkIdPostMerge : bool) (h : Hardfork) : bool :=
  match List.find (fun entry => bool_decide (fst entry = h)) (forkMap mergeForkIdPostMerge) with
  | Some (_, (_, flag)) => flag
  | None => false
  end.

(** [forkMapRev[key]]: the fork whose config field is [key].  Keys that
    name a property every JavaScript object inherits ([toString],
    [constructor], ...) are not considered: a genesis config has none. *)
Definition forkMapRev (mergeForkIdPostMerge : bool) (key : string) : option Hardfork :=
  match List.find (fun entry => String.eqb (fst (snd entry)) key)
          (forkMap mergeForkIdPostMerge) with
  | Some (h, _) => Some h
  | None => None
  end.

(** The number a block stands for in [a.block - b.block]: [null] counts
    as 0. *)
Definition blockNumber (hf : HardforkConfig) : Z := default 0 (block hf).

(** [hardforks.sort((a, b) => a.block - b.block)]: the sort is stable, so
    its result is the one of inserting from the right, each element before
    the first that is not smaller. *)
Fixpoint insertByBlock (hf : HardforkConfig) (sorted : list HardforkConfig)
  : list HardforkConfig :=
  match sorted with
  | [] => [hf]
  | x :: rest =>
      if blockNumber hf <=? blockNumber x then hf :: x :: rest
      else x :: insertByBlock hf rest
  end.

Definition sortByBlock (l : list HardforkConfig) : list HardforkConfig :=
  fold_right insertByBlock [] l.

(** The forks of the config before they are sorted: the keys that are fork
    fields, each mapped to [{ name: forkMapRev[key], block: config[key] }],
    less those whose block is [null] or [undefined]. *)
Definition configHardforks (mergeForkIdPostMerge : bool) (config : Config)
  : list HardforkConfig :=
  let configHardforkNames :=
    List.filter (fun key => bool_decide (is_Some (forkMapRev mergeForkIdPostMerge key)))
      (map fst config) in
  flat_map
    (fun nameBlock =>
       match forkMapRev mergeForkIdPostMerge nameBlock, lookup nameBlock config with
       | Some h, Some (Some b) => [mkHardfork h (Some b) None]
       | _, _ => []
       end)
    configHardforkNames.

(** [hf.block === 0] and [hf.block > 0] *)
Definition atGenesis (hf : HardforkConfig) : bool :=
  match block hf with Some b => b =? 0 | None => false end.

Definition afterGenesis (hf : HardforkConfig) : bool :=
  match block hf with Some b => b >? 0 | None => false end.

(** [array.findIndex(test)]; [None] is -1. *)
Fixpoint findIndex {A} (test : A -> bool) (l : list A) : option nat :=
  match l with
  | [] => None
  | x :: rest => if test x then Some 0%nat else option_map S (findIndex test rest)
  end.

(** [array.splice(index, 0, item)] *)
Definition splice {A} (index : nat) (item : A) (l : list A) : list A :=
  firstn index l ++ item :: skipn index l.

(** [params.hardforks] as [parseGethParams] returns it. *)
Definition hardforks (mergeForkIdPostMerge : bool) (config : Config)
  : list HardforkConfig :=
  let sorted := sortByBlock (configHardforks mergeForkIdPostMerge config) in
  let withGenesis := mkHardfork Chainstart (Some 0) None :: sorted in
  match lookup "terminalTotalDifficulty" config with
  | None => withGenesis
  | Some terminalTotalDifficulty =>
      let mergeConfig := mkHardfork Merge None (Some terminalTotalDifficulty) in
      (* If any of the genesis block require merge, then we need merge just
         right after genesis *)
      let isMergeJustPostGenesis :=
        fold_left (fun acc hf => acc || postMerge mergeForkIdPostMerge (name hf))
          (List.filter atGenesis withGenesis) false in
      let postMergeIndex :=
        findIndex
          (fun hf => (isMergeJustPostGenesis || postMerge mergeForkIdPostMerge (name hf))
                     && afterGenesis hf)
          withGenesis in
      match postMergeIndex with
      | Some index => splice index mergeConfig withGenesis
      | None => withGenesis ++ [mergeConfig]
      end
  end.

(** The order the sort leaves the forks in. *)
Definition blockLe (a b : HardforkConfig) : Prop := blockNumber a <= blockNumber b.

(** The first element of every schedule. *)
Definition genesisFork : HardforkConfig := mkHardfork Chainstart (Some 0) None.

(** The schedule a config gives when it has no terminal total difficulty. *)
Definition blockForks (mergeForkIdPostMerge : bool) (config : Config)
  : list HardforkConfig :=
  genesisFork :: sortByBlock (configHardforks mergeForkIdPostMerge config).

(** A config in the manner of a merged network: forks at genesis, London
    later, Shanghai after it, and a terminal total difficulty. *)
Definition sampleConfig : Config :=
  [ ("chainId", Some 1337);
    ("homesteadBlock", Some 0);
    ("eip150Block", Some 0);
    ("eip155Block", Some 0);
    ("eip158Block", Some 0);
    ("shanghaiBlock", Some 20);
    ("londonBlock", Some 10);
    ("berlinBlock", None);
    ("terminalTotalDifficulty", Some 5000) ]%string.

(** ** The nonce of the genesis block *)

(** [s.padStart(targetLength, c)] for a one-character pad. *)
Fixpoint replicate (n : nat) (c : ascii) : string :=
  match n with
  | O => EmptyString
  | S n' => String c (replicate n' c)
  end.

Definition padStart (targetLength : nat) (c : ascii) (s : string) : string :=
  (replicate (targetLength - String.length s) c ++ s)%string.

Section FormatNonce.
(** [isHexPrefixed] and [stripHexPrefix] come from the util package, which
    is not among these sources: they are taken as they come. *)
Variable isHexPrefixed : string -> bool.
Variable stripHexPrefix : string -> string.

Definition formatNonce (nonce : string) : string :=
  if String.eqb nonce "" || String.eqb nonce "0x0" then "0x0000000000000000"%string
  else if isHexPrefixed nonce then ("0x" ++ padStart 16 "0" (stripHexPrefix nonce))%string
  else ("0x" ++ padStart 16 "0" nonce)%string.

(** [if (nonce.length !== 18) nonce = formatNonce(nonce)] in
    [parseGethParams]. *)
Definition genesisNonce (nonce : string) : string :=
  if Nat.eqb (String.length nonce) 18 then nonce else formatNonce nonce.

(** The digits [formatNonce] pads. *)
Definition nonceDigits (nonce : string) : string :=
  if String.eqb nonce "" || String.eqb nonce "0x0" then ""%string
  else if isHexPrefixed nonce then stripHexPrefix nonce
  else nonce.

End FormatNonce.

(** Stand-ins for the two helpers in the examples: a string starts with
    [0x], and the string without that start. *)
Definition startsWith0x (s : string) : bool := String.prefix "0x" s.

Definition without0x (s : string) : string :=
  if startsWith0x s then String.substring 2 (String.length s - 2) s else s.

End GethGenesis.

(** * Constants of the util package (util/src/constants.ts) *)
Module Constants.

(** [BigInt(s)] for a hexadecimal literal. *)
Definition BigInt (s : string) : Z := HexString.to_Z s.

(** 2^64-1 *)
Definition MAX_UINT64 : Z := BigInt "0xffffffffffffffff".

(** The max integer that the evm can handle (2^256-1) *)
Definition MAX_INTEGER : Z :=
  BigInt "0xffffffffffffffffffffffffffffffffffffffffffffffffffffffffffffffff".

Definition MAX_INTEGER_BIGINT : Z := MAX_INTEGER.

(** 2^256 *)
Definition TWO_POW256 : Z :=
  BigInt "0x10000000000000000000000000000000000000000000000000000000000000000".

End Constants.

(** * Properties *)
Section Properties.
Context `{C : Collaborators}.

(** ** Facts about the inclusion pass *)

Lemma outcome_after {A} evs (r : Res A) : outcome (after evs r) = outcome r.
Proof. destruct r; reflexivity. Qed.

Lemma final_after {A} evs (r : Res A) : final (after evs r) = final r.
Proof. destruct r; reflexivity. Qed.

Lemma events_after {A} evs (r : Res A) : events (after evs r) = evs ++ events r.
Proof. destruct r; reflexivity. Qed.

(** What one turn of the loop does, by the way [addTransaction] ends. *)
Lemma addTxs_cons builder limit full tx rest st :
  addTxs builder limit full (tx :: rest) st =
  match addTransaction builder tx (world st) with
  | (w, Return _) =>
      after [Call_addTransaction builder tx]
        (addTxs builder limit full rest (mkState w (this st)))
  | (w, Throw e) =>
      if String.eqb (message e) gasLimitExceeded then
        if gasUsed builder w >? limit w - 21000 then
          mkRes (Return tt) (mkState w (this st))
            [Call_addTransaction builder tx;
             Log_info (full (limit w) (gasUsed builder w))]
        else
          after [Call_addTransaction builder tx]
            (addTxs builder limit full rest (mkState w (this st)))
      else
        after [Call_addTransaction builder tx; Log_debug (Skipping (tx_hash tx) e)]
          (addTxs builder limit full rest (mkState w (this st)))
  end.
Proof.
  cbn [addTxs]. unfold bind, try_catch, call, onAddError, read, ret, log_info, log_debug, after.
  destruct (addTransaction builder tx (world st)) as [w [u|e]]; cbn.
  - reflexivity.
  - destruct (String.eqb (message e) gasLimitExceeded); cbn.
    + destruct (gasUsed builder w >? limit w - 21000); reflexivity.
    + reflexivity.
Qed.

Lemma addTxs_returns builder limit full txs st :
  outcome (addTxs builder limit full txs st) = Return tt.
Proof.
  revert st. induction txs as [|tx rest IH]; intros st; [reflexivity|].
  rewrite addTxs_cons.
  destruct (addTransaction builder tx (world st)) as [w [u|e]];
    [rewrite outcome_after; apply IH|].
  destruct (String.eqb _ _); [destruct (_ >? _)|];
    rewrite ?outcome_after; cbn; auto.
Qed.

Lemma addTxs_this builder limit full txs st :
  this (final (addTxs builder limit full txs st)) = this st.
Proof.
  revert st. induction txs as [|tx rest IH]; intros st; [reflexivity|].
  rewrite addTxs_cons.
  destruct (addTransaction builder tx (world st)) as [w [u|e]];
    [rewrite final_after, IH; reflexivity|].
  destruct (String.eqb _ _); [destruct (_ >? _)|];
    rewrite ?final_after, ?IH; reflexivity.
Qed.

Lemma passEvent_weaken builder tx txs ev :
  passEvent builder txs ev -> passEvent builder (tx :: txs) ev.
Proof.
  destruct ev; cbn; auto. intros [-> H]. auto.
Qed.

Lemma addTxs_events builder limit full txs st :
  (forall lim used, exists g, full lim used = AssembledFull g) ->
  Forall (passEvent builder txs) (events (addTxs builder limit full txs st)).
Proof.
  intros Hfull. revert st. induction txs as [|tx rest IH]; intros st; [constructor|].
  assert (Hrest : forall st', Forall (passEvent builder (tx :: rest))
            (events (addTxs builder limit full rest st'))).
  { intros st'. eapply Forall_impl; [apply IH|]. intros ev. apply passEvent_weaken. }
  assert (Hadd : passEvent builder (tx :: rest) (Call_addTransaction builder tx)).
  { cbn. auto. }
  rewrite addTxs_cons.
  destruct (addTransaction builder tx (world st)) as [w [u|e]].
  - rewrite events_after. cbn. constructor; auto.
  - destruct (String.eqb _ _); [destruct (_ >? _)|]; rewrite ?events_after; cbn.
    + constructor; auto. constructor; [|constructor].
      destruct (Hfull (limit w) (gasUsed builder w)) as [g ->]. exact I.
    + constructor; auto.
    + constructor; auto. constructor; auto. exact I.
Qed.

(** ** The registry *)

Lemma findPayload_None payloadId l :
  findPayload payloadId l = None <-> ~ registered payloadId l.
Proof.
  unfold findPayload, registered. split.
  - intros H [p [Hin Hp]]. pose proof (find_none _ _ H p Hin) as Hn. cbn in Hn. congruence.
  - intros H. destruct (List.find _ l) as [p|] eqn:E; [|reflexivity].
    apply find_some in E. exfalso. apply H. exists p. exact E.
Qed.

Lemma removePayload_not_registered payloadId l :
  ~ registered payloadId (removePayload payloadId l).
Proof.
  unfold registered, removePayload. intros [p [Hin Hp]].
  apply filter_In in Hin. destruct Hin as [_ Hn]. rewrite Hp in Hn. discriminate.
Qed.

Lemma removePayload_other payloadId l p :
  In p (removePayload payloadId l) <-> In p l /\ fst p <> payloadId.
Proof.
  unfold removePayload. rewrite filter_In. unfold Buffer_equals.
  rewrite negb_true_iff, bool_decide_eq_false. reflexivity.
Qed.

(** ** What [stop] and [build] do, case by case *)

Lemma stop_absent payloadId st :
  findPayload payloadId (pendingPayloads (this st)) = None ->
  stop payloadId st = mkRes (Return tt) st [].
Proof.
  intros H. unfold stop, bind, get_this, ret. cbn. rewrite H. reflexivity.
Qed.

Lemma stop_found payloadId st p :
  findPayload payloadId (pendingPayloads (this st)) = Some p ->
  stop payloadId st =
  mkRes (Return tt)
    (mkState (fst (builder_revert (snd p) (world st)))
       (mkPendingBlock (txPool (this st))
          (removePayload payloadId (pendingPayloads (this st)))))
    [Call_revert (snd p)].
Proof.
  intros H. unfold stop, bind, get_this, ret, void, call, set_pendingPayloads.
  cbn. rewrite H. cbn.
  destruct (builder_revert (snd p) (world st)) as [w o]; reflexivity.
Qed.

Lemma build_absent payloadId st :
  findPayload payloadId (pendingPayloads (this st)) = None ->
  build payloadId st = mkRes (Return None) st [].
Proof.
  intros H. unfold build. unfold bind at 1. unfold get_this at 1.
  cbn [outcome final events app]. rewrite H. reflexivity.
Qed.

Lemma build_found payloadId st p :
  findPayload payloadId (pendingPayloads (this st)) = Some p ->
  let builder := snd p in
  let poolCall :=
    Call_txsByPriceAndNonce (txPool (this st)) (builder_vm builder (world st))
      (baseFeePerGas (builder_headerData builder (world st))) in
  build payloadId st =
  match txsByPriceAndNonce (txPool (this st)) (builder_vm builder (world st))
          (baseFeePerGas (builder_headerData builder (world st))) (world st) with
  | (w1, Throw e) => mkRes (Throw e) (mkState w1 (this st)) [poolCall]
  | (w1, Return pool) =>
      let pass := topUp builder (topUpTxs builder pool w1) (mkState w1 (this st)) in
      let before :=
        poolCall :: Log_info (Adding (length (topUpTxs builder pool w1))) :: events pass in
      match builder_build builder (world (final pass)) with
      | (w2, Throw e) =>
          mkRes (Throw e) (mkState w2 (this st)) (before ++ [Call_build builder])
      | (w2, Return block) =>
          mkRes (Return (Some (block, transactionReceipts builder w2)))
            (mkState w2
               (mkPendingBlock (txPool (this st))
                  (removePayload payloadId (pendingPayloads (this st)))))
            (before ++ [Call_build builder; Log_info (Built block)])
      end
  end.
Proof.
  intros H builder poolCall. subst poolCall.
  unfold build, bind at 1, get_this. cbn. rewrite H. fold builder.
  unfold bind, read, call, log_info, set_pendingPayloads, ret. cbn.
  destruct (txsByPriceAndNonce _ _ _ _) as [w1 [pool|e]]; cbn; [|reflexivity].
  fold (topUpTxs builder pool w1).
  pose proof (addTxs_returns builder (fun w => gasLimit (builder_headerData builder w))
    (fun _ _ => AssembledFull None) (topUpTxs builder pool w1)
    {| world := w1; this := this st |}) as Hret.
  pose proof (addTxs_this builder (fun w => gasLimit (builder_headerData builder w))
    (fun _ _ => AssembledFull None) (topUpTxs builder pool w1)
    {| world := w1; this := this st |}) as Hthis.
  fold (topUp builder (topUpTxs builder pool w1) {| world := w1; this := this st |}) in Hret, Hthis.
  destruct (topUp builder (topUpTxs builder pool w1) _) as [o f evs]. cbn in *. subst o. cbn.
  destruct (builder_build builder (world f)) as [w2 [block|e]]; cbn.
  - destruct f as [wf self]. cbn in *. subst self. reflexivity.
  - destruct f as [wf self]. cbn in *. subst self. reflexivity.
Qed.

(** ** What [start] does, step by step *)

Lemma start_steps vm parent headerOverrides wds st :
  let root := header_stateRoot parent in
  let reset := Call_setStateRoot vm root in
  start vm parent headerOverrides wds st =
  match nextBaseFee vm parent (world st) with
  | Throw e => mkRes (Throw e) st []
  | Return baseFee =>
    match setStateRoot vm root (world st) with
    | (w1, Throw e) => mkRes (Throw e) (mkState w1 (this st)) [reset]
    | (w1, Return _) =>
      match getTotalDifficulty vm with
      | None => mkRes (Throw (mkError noTotalDifficulty)) (mkState w1 (this st)) [reset]
      | Some getTD =>
        let weigh := Call_getTotalDifficulty vm (block_hash parent) in
        match getTD (block_hash parent) w1 with
        | (w2, Throw e) => mkRes (Throw e) (mkState w2 (this st)) [reset; weigh]
        | (w2, Return td) =>
          let opts := startOpts parent headerOverrides wds baseFee td in
          let create := Call_buildBlock vm opts in
          match buildBlock vm opts w2 with
          | (w3, Throw e) => mkRes (Throw e) (mkState w3 (this st)) [reset; weigh; create]
          | (w3, Return builder) =>
            let payloadId := snd (randomBytes 8 w3) in
            let self :=
              mkPendingBlock (txPool (this st))
                (pendingPayloads (this st) ++ [(payloadId, builder)]) in
            let poolCall := Call_txsByPriceAndNonce (txPool (this st)) vm baseFee in
            let before := [reset; weigh; create; Call_randomBytes 8; poolCall] in
            match txsByPriceAndNonce (txPool (this st)) vm baseFee
                    (fst (randomBytes 8 w3)) with
            | (w5, Throw e) => mkRes (Throw e) (mkState w5 self) before
            | (w5, Return txs) =>
              let pass := seed builder parent txs (mkState w5 self) in
              mkRes (Return payloadId) (final pass)
                (before ++ Log_info (Assembling (length txs) baseFee) :: events pass)
            end
          end
        end
      end
    end
  end.
Proof.
  intros root reset. subst root reset.
  unfold start, nextBaseFee, startOpts.
  unfold bind, read, lift, call, throw, ret, get_this, set_pendingPayloads, log_info.
  cbn.
  destruct (isActivatedEIP vm 1559 (world st));
    [destruct (calcNextBaseFee parent) as [fee|e]; cbn; [|reflexivity]|];
    (destruct (setStateRoot _ _ _) as [w1 [u|e]]; cbn; [|reflexivity];
     destruct (getTotalDifficulty vm) as [getTD|]; cbn; [|reflexivity];
     destruct (getTD _ _) as [w2 [td|e]]; cbn; [|reflexivity];
     destruct (buildBlock _ _ _) as [w3 [builder|e]]; cbn; [|reflexivity];
     destruct (randomBytes 8 w3) as [w4 payloadId]; cbn;
     destruct (txsByPriceAndNonce _ _ _ _) as [w5 [txs|e]]; cbn; [|reflexivity];
     match goal with
     | |- context [seed ?b ?p ?t ?s] =>
         pose proof (addTxs_returns b _ _ t s : outcome (seed b p t s) = Return tt) as Hret;
         destruct (seed b p t s) as [o fs evs]
     end;
     cbn in *; subst o; rewrite ?app_nil_r; reflexivity).
Qed.

Lemma Forall_In {A} (P : A -> Prop) (l : list A) (x : A) :
  Forall P l -> In x l -> P x.
Proof.
  intros H Hin. induction H as [|y l Hy _ IH]; [destruct Hin|].
  destruct Hin as [<-|Hin]; auto.
Qed.

Lemma seed_events builder parent txs st :
  Forall (passEvent builder txs) (events (seed builder parent txs st)).
Proof. apply addTxs_events. intros lim used. eauto. Qed.

Lemma topUp_events builder txs st :
  Forall (passEvent builder txs) (events (topUp builder txs st)).
Proof. apply addTxs_events. intros lim used. eauto. Qed.

Lemma passEvent_kind builder txs ev :
  passEvent builder txs ev ->
  isBuildBlock ev = false /\ isFinalize ev = false /\ isRevert ev = false.
Proof. destruct ev; cbn; intuition. Qed.

(** ** The inclusion pass: full blocks and rejected transactions *)

(** A candidate that does not fit, in any pass. *)
Lemma addTxs_gas_error builder limit full tx rest st w e :
  addTransaction builder tx (world st) = (w, Throw e) ->
  message e = gasLimitExceeded ->
  (limit w - gasUsed builder w < 21000 ->
   addTxs builder limit full (tx :: rest) st =
   mkRes (Return tt) (mkState w (this st))
     [Call_addTransaction builder tx; Log_info (full (limit w) (gasUsed builder w))])
  /\
  (21000 <= limit w - gasUsed builder w ->
   addTxs builder limit full (tx :: rest) st =
   after [Call_addTransaction builder tx]
     (addTxs builder limit full rest (mkState w (this st)))).
Proof.
  intros Hadd Hmsg. rewrite addTxs_cons, Hadd, Hmsg, String.eqb_refl.
  split; intros Hrem.
  - replace (gasUsed builder w >? limit w - 21000) with true; [reflexivity|].
    symmetry. apply Z.gtb_lt. lia.
  - replace (gasUsed builder w >? limit w - 21000) with false; [reflexivity|].
    symmetry. rewrite Z.gtb_ltb. apply Z.ltb_ge. lia.
Qed.

(** C1 (as the code has it): when a candidate fails because its gas limit
    exceeds the gas that remains in the block, the pass of [start] and the
    pass of [build] classify the block full and attempt no further candidate
    exactly when gasLimit - gasUsed < 21000; when gasLimit - gasUsed >= 21000
    the candidate is skipped, nothing is logged and the pass goes on with the
    next candidate.  The gas limit is the parent's in [start] and the
    builder's header field in [build]; gas used is read after the failed
    call. *)
Theorem full_below_21000 builder parent tx rest st w e :
  addTransaction builder tx (world st) = (w, Throw e) ->
  message e = gasLimitExceeded ->
  let st' := mkState w (this st) in
  let left := header_gasLimit parent - gasUsed builder w in
  let left' := gasLimit (builder_headerData builder w) - gasUsed builder w in
  (left < 21000 ->
   seed builder parent (tx :: rest) st =
   mkRes (Return tt) st'
     [Call_addTransaction builder tx; Log_info (AssembledFull (Some left))]) /\
  (21000 <= left ->
   seed builder parent (tx :: rest) st =
   after [Call_addTransaction builder tx] (seed builder parent rest st')) /\
  (left' < 21000 ->
   topUp builder (tx :: rest) st =
   mkRes (Return tt) st'
     [Call_addTransaction builder tx; Log_info (AssembledFull None)]) /\
  (21000 <= left' ->
   topUp builder (tx :: rest) st =
   after [Call_addTransaction builder tx] (topUp builder rest st')).
Proof.
  intros Hadd Hmsg st' left left'. unfold seed, topUp.
  pose proof (addTxs_gas_error builder (fun _ => header_gasLimit parent)
    (fun lim used => AssembledFull (Some (lim - used))) tx rest st w e Hadd Hmsg) as [H1 H2].
  pose proof (addTxs_gas_error builder (fun w => gasLimit (builder_headerData builder w))
    (fun _ _ => AssembledFull None) tx rest st w e Hadd Hmsg) as [H3 H4].
  cbn beta in H1, H2, H3, H4. auto.
Qed.

Lemma start_throw_before_pass vm parent headerOverrides wds st e ev :
  outcome (start vm parent headerOverrides wds st) = Throw e ->
  In ev (events (start vm parent headerOverrides wds st)) ->
  isAddTransaction ev = false.
Proof.
  rewrite start_steps. cbv zeta.
  repeat match goal with
         | |- context [match ?x with _ => _ end] => destruct x
         end; cbn; intros Hthrow Hin; try discriminate;
    repeat (destruct Hin as [<-|Hin]; [reflexivity|]); destruct Hin.
Qed.

Lemma build_throw_source payloadId st e :
  outcome (build payloadId st) = Throw e ->
  exists evs ev, events (build payloadId st) = evs ++ [ev] /\
    match ev with
    | Call_txsByPriceAndNonce _ _ _ | Call_build _ => True
    | _ => False
    end.
Proof.
  destruct (findPayload payloadId (pendingPayloads (this st))) as [p|] eqn:Hfind.
  - rewrite (build_found _ _ _ Hfind). cbv zeta.
    destruct (txsByPriceAndNonce _ _ _ _) as [w1 [pool|e1]]; cbn.
    + destruct (builder_build _ _) as [w2 [block|e2]]; cbn [outcome events];
        [discriminate|].
      intros _.
      match goal with
      | |- context [?a :: ?b :: events ?r ++ _] => exists (a :: b :: events r)
      end.
      exists (Call_build (snd p)). split; [reflexivity|exact I].
    + intros _. exists [], (Call_txsByPriceAndNonce (txPool (this st))
        (builder_vm (snd p) (world st))
        (baseFeePerGas (builder_headerData (snd p) (world st)))).
      split; [reflexivity|exact I].
  - rewrite (build_absent _ _ Hfind). cbn. discriminate.
Qed.

(** C4: a candidate whose application fails for any reason other than the
    exceeds-remaining-block-gas condition is logged and skipped, and the pass
    goes on with the next candidate; the pass itself always returns.  When
    [start] throws, no candidate had been attempted yet; when [build] throws,
    the call that threw is the pool's or the builder's [build], never an
    [addTransaction]. *)
Theorem rejected_tx_is_skipped builder limit full tx rest st w e :
  addTransaction builder tx (world st) = (w, Throw e) ->
  message e <> gasLimitExceeded ->
  addTxs builder limit full (tx :: rest) st =
    after [Call_addTransaction builder tx; Log_debug (Skipping (tx_hash tx) e)]
      (addTxs builder limit full rest (mkState w (this st))) /\
  outcome (addTxs builder limit full (tx :: rest) st) = Return tt /\
  (forall vm parent headerOverrides wds st0 e0 ev,
     outcome (start vm parent headerOverrides wds st0) = Throw e0 ->
     In ev (events (start vm parent headerOverrides wds st0)) ->
     isAddTransaction ev = false) /\
  (forall payloadId st0 e0,
     outcome (build payloadId st0) = Throw e0 ->
     exists evs ev, events (build payloadId st0) = evs ++ [ev] /\
       match ev with
       | Call_txsByPriceAndNonce _ _ _ | Call_build _ => True
       | _ => False
       end).
Proof.
  intros Hadd Hmsg. split; [|split; [|split]].
  - rewrite addTxs_cons, Hadd.
    apply String.eqb_neq in Hmsg. rewrite Hmsg. reflexivity.
  - apply addTxs_returns.
  - apply start_throw_before_pass.
  - apply build_throw_source.
Qed.

(** ** The registry: build, stop and removal *)

Lemma build_unregistered payloadId st :
  ~ registered payloadId (pendingPayloads (this st)) ->
  build payloadId st = mkRes (Return None) st [].
Proof. intros H. apply build_absent, findPayload_None, H. Qed.

Lemma build_success_registry payloadId st result :
  outcome (build payloadId st) = Return (Some result) ->
  pendingPayloads (this (final (build payloadId st))) =
  removePayload payloadId (pendingPayloads (this st)).
Proof.
  destruct (findPayload payloadId (pendingPayloads (this st))) as [p|] eqn:Hfind.
  - rewrite (build_found _ _ _ Hfind). cbv zeta.
    destruct (txsByPriceAndNonce _ _ _ _) as [w1 [pool|e1]]; cbn; [|discriminate].
    destruct (builder_build _ _) as [w2 [block|e2]]; cbn; [reflexivity|discriminate].
  - rewrite (build_absent _ _ Hfind). cbn. discriminate.
Qed.

Lemma stop_registry_incl payloadId st p :
  In p (pendingPayloads (this (final (stop payloadId st)))) ->
  In p (pendingPayloads (this st)).
Proof.
  destruct (findPayload payloadId (pendingPayloads (this st))) as [q|] eqn:Hfind.
  - rewrite (stop_found _ _ _ Hfind). cbn. intros H. apply removePayload_other in H. tauto.
  - rewrite (stop_absent _ _ Hfind). auto.
Qed.

Lemma build_registry_incl payloadId st p :
  In p (pendingPayloads (this (final (build payloadId st)))) ->
  In p (pendingPayloads (this st)).
Proof.
  destruct (findPayload payloadId (pendingPayloads (this st))) as [q|] eqn:Hfind.
  - rewrite (build_found _ _ _ Hfind). cbv zeta.
    destruct (txsByPriceAndNonce _ _ _ _) as [w1 [pool|e1]]; cbn; [|auto].
    destruct (builder_build _ _) as [w2 [block|e2]]; cbn; [|auto].
    intros H. apply removePayload_other in H. tauto.
  - rewrite (build_absent _ _ Hfind). auto.
Qed.



(** C3: when the pool has answered and the builder's [build] throws, the
    error is the outcome of [build(id)] and the object is left as it was: the
    payload is still registered, and a later lookup finds the same entry. *)
Theorem finalize_failure_keeps_payload payloadId st p pool w1 w2 e :
  findPayload payloadId (pendingPayloads (this st)) = Some p ->
  txsByPriceAndNonce (txPool (this st)) (builder_vm (snd p) (world st))
    (baseFeePerGas (builder_headerData (snd p) (world st))) (world st)
    = (w1, Return pool) ->
  builder_build (snd p)
    (world (final (topUp (snd p) (topUpTxs (snd p) pool w1) (mkState w1 (this st)))))
    = (w2, Throw e) ->
  let r := build payloadId st in
  outcome r = Throw e /\
  this (final r) = this st /\
  world (final r) = w2 /\
  findPayload payloadId (pendingPayloads (this (final r))) = Some p /\
  registered payloadId (pendingPayloads (this (final r))).
Proof.
  intros Hfind Hpool Hfin r. subst r.
  rewrite (build_found _ _ _ Hfind). cbv zeta. rewrite Hpool, Hfin. cbn.
  repeat split; auto.
  exists p. apply find_some in Hfind. exact Hfind.
Qed.

Lemma notIncluded_true included tx :
  notIncluded included tx = true <->
  forall t, In t included -> tx_hash t <> tx_hash tx.
Proof.
  unfold notIncluded. rewrite eqb_true_iff. split.
  - intros H t Hin Heq.
    assert (existsb (fun t => Buffer_equals (tx_hash t) (tx_hash tx)) included = true).
    { apply existsb_exists. exists t. split; [exact Hin|].
      apply bool_decide_eq_true. exact Heq. }
    congruence.
  - intros H. apply not_true_is_false. intros Hex.
    apply existsb_exists in Hex. destruct Hex as [t [Hin Heq]].
    apply bool_decide_eq_true in Heq. exact (H t Hin Heq).
Qed.

(** C5: every [addTransaction] that [build(id)] makes is on the payload's
    own builder, with a candidate the pool returned whose hash differs from
    the hash of every transaction the builder already holds when the pool
    answers. *)
Theorem build_attempts_only_new payloadId st p builder tx :
  findPayload payloadId (pendingPayloads (this st)) = Some p ->
  In (Call_addTransaction builder tx) (events (build payloadId st)) ->
  builder = snd p /\
  exists w1 pool,
    txsByPriceAndNonce (txPool (this st)) (builder_vm (snd p) (world st))
      (baseFeePerGas (builder_headerData (snd p) (world st))) (world st)
      = (w1, Return pool) /\
    In tx pool /\
    forall t, In t (transactions (snd p) w1) -> tx_hash t <> tx_hash tx.
Proof.
  intros Hfind. rewrite (build_found _ _ _ Hfind). cbv zeta.
  destruct (txsByPriceAndNonce _ _ _ _) as [w1 [pool|e1]]; cbn.
  - intros Hin.
    assert (Hpass : In (Call_addTransaction builder tx)
              (events (topUp (snd p) (topUpTxs (snd p) pool w1)
                         {| world := w1; this := this st |}))).
    { destruct (builder_build _ _) as [w2 [block|e2]]; cbn in Hin;
        destruct Hin as [Hin|[Hin|Hin]]; try discriminate;
        apply in_app_or in Hin; destruct Hin as [Hin|Hin]; auto;
        cbn in Hin; intuition discriminate. }
    apply (Forall_In _ _ _ (topUp_events _ _ _)) in Hpass. cbn in Hpass.
    destruct Hpass as [-> Htx]. split; [reflexivity|].
    exists w1, pool. split; [reflexivity|].
    unfold topUpTxs in Htx. apply filter_In in Htx. destruct Htx as [Htx Hnew].
    split; [exact Htx|]. apply notIncluded_true. exact Hnew.
  - intros [Hin|[]]. discriminate.
Qed.

(** C6: [stop(id)] always returns; when the registry has no entry for [id]
    nothing is called and nothing changes; when it has one, the first
    matching builder is asked to revert and, however that call ends, the
    registry becomes the old one without the entries for [id].  Afterwards
    [id] is not registered and [build(id)] returns the not-found answer. *)
Theorem stop_never_fails payloadId st :
  let r := stop payloadId st in
  outcome r = Return tt /\
  (findPayload payloadId (pendingPayloads (this st)) = None -> r = mkRes (Return tt) st []) /\
  (forall p, findPayload payloadId (pendingPayloads (this st)) = Some p ->
     events r = [Call_revert (snd p)] /\
     world (final r) = fst (builder_revert (snd p) (world st)) /\
     pendingPayloads (this (final r)) =
       removePayload payloadId (pendingPayloads (this st))) /\
  ~ registered payloadId (pendingPayloads (this (final r))) /\
  build payloadId (final r) = mkRes (Return None) (final r) [].
Proof.
  intros r.
  assert (Hgone : ~ registered payloadId (pendingPayloads (this (final r)))).
  { subst r. destruct (findPayload payloadId (pendingPayloads (this st))) as [p|] eqn:Hfind.
    - rewrite (stop_found _ _ _ Hfind). cbn. apply removePayload_not_registered.
    - rewrite (stop_absent _ _ Hfind). cbn. apply findPayload_None, Hfind. }
  split; [|split; [|split; [|split]]].
  - subst r. destruct (findPayload payloadId (pendingPayloads (this st))) as [p|] eqn:Hfind.
    + rewrite (stop_found _ _ _ Hfind). reflexivity.
    + rewrite (stop_absent _ _ Hfind). reflexivity.
  - intros Hfind. subst r. apply stop_absent, Hfind.
  - intros p Hfind. subst r. rewrite (stop_found _ _ _ Hfind). cbn. auto.
  - exact Hgone.
  - apply build_unregistered, Hgone.
Qed.

Lemma pass_no_finalize builder txs evs :
  Forall (passEvent builder txs) evs -> List.filter isFinalize evs = [].
Proof.
  induction 1 as [|ev evs Hev _ IH]; [reflexivity|].
  cbn. apply passEvent_kind in Hev. destruct Hev as [_ [-> _]]. exact IH.
Qed.

(** C10: after [stop(id)], and after a [build(id)] that returned a block,
    the registry is the old one with every entry for [id] filtered out: an
    entry remains exactly when it was there and its identifier differs from
    [id].  One builder at most was asked to revert, exactly one to build:
    the first that matches. *)
Theorem removal_is_exhaustive payloadId st :
  let stopped := stop payloadId st in
  let built := build payloadId st in
  (forall p, In p (pendingPayloads (this (final stopped))) <->
             In p (pendingPayloads (this st)) /\ fst p <> payloadId) /\
  (events stopped = [] \/
   exists p, findPayload payloadId (pendingPayloads (this st)) = Some p /\
             events stopped = [Call_revert (snd p)]) /\
  (forall result, outcome built = Return (Some result) ->
     (forall p, In p (pendingPayloads (this (final built))) <->
                In p (pendingPayloads (this st)) /\ fst p <> payloadId) /\
     exists p, findPayload payloadId (pendingPayloads (this st)) = Some p /\
               List.filter isFinalize (events built) = [Call_build (snd p)]).
Proof.
  intros stopped built. split; [|split].
  - intros p. subst stopped.
    destruct (findPayload payloadId (pendingPayloads (this st))) as [q|] eqn:Hfind.
    + rewrite (stop_found _ _ _ Hfind). cbn. apply removePayload_other.
    + rewrite (stop_absent _ _ Hfind). cbn. split; [|tauto].
      intros Hin. split; [exact Hin|]. intros Heq.
      apply findPayload_None in Hfind. apply Hfind. exists p.
      split; [exact Hin|]. apply bool_decide_eq_true. exact Heq.
  - subst stopped.
    destruct (findPayload payloadId (pendingPayloads (this st))) as [q|] eqn:Hfind.
    + right. exists q. rewrite (stop_found _ _ _ Hfind). auto.
    + left. rewrite (stop_absent _ _ Hfind). reflexivity.
  - intros result Hok. split.
    + intros p. subst built. rewrite (build_success_registry _ _ _ Hok).
      apply removePayload_other.
    + subst built.
      destruct (findPayload payloadId (pendingPayloads (this st))) as [q|] eqn:Hfind.
      * exists q. split; [reflexivity|]. revert Hok.
        rewrite (build_found _ _ _ Hfind). cbv zeta.
        destruct (txsByPriceAndNonce _ _ _ _) as [w1 [pool|e1]]; cbn; [|discriminate].
        destruct (builder_build _ _) as [w2 [block|e2]]; cbn; [|discriminate].
        intros _. rewrite List.filter_app.
        rewrite (pass_no_finalize _ _ _ (topUp_events _ _ _)). reflexivity.
      * revert Hok. rewrite (build_absent _ _ Hfind). cbn. discriminate.
Qed.

(** ** start: base fee, chain weight and the state reset *)

Lemma seed_no_buildBlock builder parent txs st ev :
  In ev (events (seed builder parent txs st)) -> isBuildBlock ev = false.
Proof.
  intros Hin. apply (Forall_In _ _ _ (seed_events _ _ _ _)), passEvent_kind in Hin. tauto.
Qed.

(** The one [vm.buildBlock] call of [start], when it is made. *)
Lemma start_buildBlock vm parent headerOverrides wds st vm' opts :
  In (Call_buildBlock vm' opts) (events (start vm parent headerOverrides wds st)) ->
  exists baseFee w1 getTD w2 td,
    nextBaseFee vm parent (world st) = Return baseFee /\
    setStateRoot vm (header_stateRoot parent) (world st) = (w1, Return tt) /\
    getTotalDifficulty vm = Some getTD /\
    getTD (block_hash parent) w1 = (w2, Return td) /\
    vm' = vm /\
    opts = startOpts parent headerOverrides wds baseFee td.
Proof.
  rewrite start_steps. cbv zeta.
  destruct (nextBaseFee vm parent (world st)) as [baseFee|e0]; [|intros []].
  destruct (setStateRoot _ _ _) as [w1 [[]|e1]];
    [|cbn; intros [H|[]]; discriminate].
  destruct (getTotalDifficulty vm) as [getTD|]; [|cbn; intros [H|[]]; discriminate].
  destruct (getTD _ _) as [w2 [td|e2]] eqn:Htd;
    [|cbn; intros [H|[H|[]]]; discriminate].
  assert (Hdone : Call_buildBlock vm (startOpts parent headerOverrides wds baseFee td) =
                  Call_buildBlock vm' opts ->
            exists baseFee0 w0 getTD0 w3 td0,
              Return baseFee = Return baseFee0 /\
              (w1, @Return unit tt) = (w0, Return tt) /\
              Some getTD = Some getTD0 /\
              getTD0 (block_hash parent) w0 = (w3, Return td0) /\
              vm' = vm /\
              opts = startOpts parent headerOverrides wds baseFee0 td0).
  { intros H. injection H as <- <-.
    exists baseFee, w1, getTD, w2, td. repeat split; auto. }
  destruct (buildBlock _ _ _) as [w3 [builder|e3]].
  - destruct (txsByPriceAndNonce _ _ _ _) as [w5 [txs|e5]]; cbn.
    + intros [H|[H|[H|[H|[H|[H|Hin]]]]]]; try discriminate; auto.
      apply seed_no_buildBlock in Hin. discriminate.
    + intros [H|[H|[H|[H|[H|[]]]]]]; try discriminate; auto.
  - cbn. intros [H|[H|[H|[]]]]; try discriminate; auto.
Qed.


(** C8: when the blockchain has no [getTotalDifficulty], [start] throws;
    it has asked for no builder, attempted no transaction and left the
    registry as it was.  The error is the one raised by the check itself
    whenever the two steps before it (the base fee and the state reset) have
    returned. *)
Theorem start_without_getTotalDifficulty vm parent headerOverrides wds st :
  getTotalDifficulty vm = None ->
  let r := start vm parent headerOverrides wds st in
  (exists e, outcome r = Throw e) /\
  this (final r) = this st /\
  (forall ev, In ev (events r) -> isBuildBlock ev = false /\ isAddTransaction ev = false) /\
  (forall baseFee w1,
     nextBaseFee vm parent (world st) = Return baseFee ->
     setStateRoot vm (header_stateRoot parent) (world st) = (w1, Return tt) ->
     r = mkRes (Throw (mkError noTotalDifficulty)) (mkState w1 (this st))
           [Call_setStateRoot vm (header_stateRoot parent)]).
Proof.
  intros Hno r. subst r. rewrite start_steps. cbv zeta. rewrite Hno.
  destruct (nextBaseFee vm parent (world st)) as [baseFee|e0].
  - destruct (setStateRoot _ _ _) as [w1 [[]|e1]]; cbn.
    + split; [eauto|]. split; [reflexivity|]. split.
      * intros ev [<-|[]]. auto.
      * intros baseFee' w1' _ H. injection H as <-. reflexivity.
    + split; [eauto|]. split; [reflexivity|]. split.
      * intros ev [<-|[]]. auto.
      * intros baseFee' w1' _ H. discriminate.
  - cbn. split; [eauto|]. split; [reflexivity|]. split.
    + intros ev [].
    + intros baseFee' w1' H. discriminate.
Qed.


(** ** Further properties of the pass *)

Lemma filter_after {A} (f : Event -> bool) evs (r : Res A) :
  List.filter f (events (after evs r)) = List.filter f evs ++ List.filter f (events r).
Proof. rewrite events_after. apply List.filter_app. Qed.

(** The candidates a pass attempts, in order, and how it ends. *)
Lemma addTxs_attempts builder limit full txs st :
  (forall lim used, exists g, full lim used = AssembledFull g) ->
  exists attempted rest,
    txs = attempted ++ rest /\
    List.filter isAddTransaction (events (addTxs builder limit full txs st)) =
      map (Call_addTransaction builder) attempted /\
    ((List.filter isFullLog (events (addTxs builder limit full txs st)) = [] /\
      rest = []) \/
     (exists before g,
        events (addTxs builder limit full txs st) =
          before ++ [Log_info (AssembledFull g)] /\
        List.filter isFullLog before = [])).
Proof.
  intros Hfull. revert st. induction txs as [|tx txs IH]; intros st.
  - exists [], []. cbn. auto.
  - rewrite addTxs_cons.
    destruct (addTransaction builder tx (world st)) as [w [u|e]].
    + destruct (IH (mkState w (this st))) as (att & rest & Htxs & Hadd & Hend).
      exists (tx :: att), rest. split; [cbn; congruence|].
      rewrite !filter_after. cbn. split; [congruence|].
      destruct Hend as [[Hno ->]|(before & g & Hev & Hbefore)].
      * left. auto.
      * right. exists (Call_addTransaction builder tx :: before), g.
        rewrite events_after, Hev. cbn. auto.
    + destruct (String.eqb (message e) gasLimitExceeded).
      * destruct (gasUsed builder w >? limit w - 21000).
        -- exists [tx], txs. cbn [events]. split; [reflexivity|].
           destruct (Hfull (limit w) (gasUsed builder w)) as [g ->].
           split; [reflexivity|]. right.
           exists [Call_addTransaction builder tx], g. auto.
        -- destruct (IH (mkState w (this st))) as (att & rest & Htxs & Hadd & Hend).
           exists (tx :: att), rest. split; [cbn; congruence|].
           rewrite !filter_after. cbn. split; [congruence|].
           destruct Hend as [[Hno ->]|(before & g & Hev & Hbefore)].
           ++ left. auto.
           ++ right. exists (Call_addTransaction builder tx :: before), g.
              rewrite events_after, Hev. cbn. auto.
      * destruct (IH (mkState w (this st))) as (att & rest & Htxs & Hadd & Hend).
        exists (tx :: att), rest. split; [cbn; congruence|].
        rewrite !filter_after. cbn. split; [congruence|].
        destruct Hend as [[Hno ->]|(before & g & Hev & Hbefore)].
        -- left. auto.
        -- right.
           exists (Call_addTransaction builder tx :: Log_debug (Skipping (tx_hash tx) e)
                     :: before), g.
           rewrite events_after, Hev. cbn. auto.
Qed.

(** X1: a pass, in [start] as in [build], attempts its candidates in the
    order given, each once and without gaps: the [addTransaction] calls it
    makes are those of a leading part of the list.  Either no full-block
    message is logged and every candidate was attempted, or exactly one is
    logged and it is the last thing the pass does. *)
Theorem pass_attempts_in_order builder parent txs st :
  (exists attempted rest,
     txs = attempted ++ rest /\
     List.filter isAddTransaction (events (seed builder parent txs st)) =
       map (Call_addTransaction builder) attempted /\
     ((List.filter isFullLog (events (seed builder parent txs st)) = [] /\ rest = []) \/
      (exists before g,
         events (seed builder parent txs st) = before ++ [Log_info (AssembledFull g)] /\
         List.filter isFullLog before = []))) /\
  (exists attempted rest,
     txs = attempted ++ rest /\
     List.filter isAddTransaction (events (topUp builder txs st)) =
       map (Call_addTransaction builder) attempted /\
     ((List.filter isFullLog (events (topUp builder txs st)) = [] /\ rest = []) \/
      (exists before g,
         events (topUp builder txs st) = before ++ [Log_info (AssembledFull g)] /\
         List.filter isFullLog before = []))).
Proof.
  split; apply addTxs_attempts; intros lim used; eauto.
Qed.

(** ** Further properties of the registry *)

Lemma findPayload_app payloadId l l' :
  findPayload payloadId (l ++ l') =
  match findPayload payloadId l with
  | Some p => Some p
  | None => findPayload payloadId l'
  end.
Proof.
  unfold findPayload. induction l as [|q l IH]; [reflexivity|].
  cbn. destruct (Buffer_equals (fst q) payloadId); auto.
Qed.

Lemma findPayload_removePayload payloadId other l :
  other <> payloadId ->
  findPayload other (removePayload payloadId l) = findPayload other l.
Proof.
  intros Hne. unfold findPayload, removePayload, Buffer_equals.
  induction l as [|q l IH]; [reflexivity|]. cbn.
  destruct (bool_decide (fst q = payloadId)) eqn:Hq; cbn.
  - apply bool_decide_eq_true in Hq.
    replace (bool_decide (fst q = other)) with false; [exact IH|].
    symmetry. apply bool_decide_eq_false. congruence.
  - rewrite IH. reflexivity.
Qed.

Lemma removePayload_app payloadId l l' :
  removePayload payloadId (l ++ l') = removePayload payloadId l ++ removePayload payloadId l'.
Proof. apply List.filter_app. Qed.

Lemma removePayload_fresh payloadId l :
  ~ registered payloadId l -> removePayload payloadId l = l.
Proof.
  unfold registered, removePayload. induction l as [|q l IH]; intros Hfresh; [reflexivity|].
  cbn. destruct (Buffer_equals (fst q) payloadId) eqn:Hq; cbn.
  - exfalso. apply Hfresh. exists q. cbn. auto.
  - f_equal. apply IH. intros [p [Hin Hp]]. apply Hfresh. exists p. cbn. auto.
Qed.

(** The registry [start] leaves when it returns, with the builder it got. *)
Lemma start_return vm parent headerOverrides wds st payloadId :
  outcome (start vm parent headerOverrides wds st) = Return payloadId ->
  exists builder opts w w',
    buildBlock vm opts w = (w', Return builder) /\
    payloadId = snd (randomBytes 8 w') /\
    this (final (start vm parent headerOverrides wds st)) =
      mkPendingBlock (txPool (this st))
        (pendingPayloads (this st) ++ [(payloadId, builder)]).
Proof.
  rewrite start_steps. cbv zeta.
  destruct (nextBaseFee vm parent (world st)) as [baseFee|e0]; [|discriminate].
  destruct (setStateRoot _ _ _) as [w1 [[]|e1]]; [|discriminate].
  destruct (getTotalDifficulty vm) as [getTD|]; [|discriminate].
  destruct (getTD _ _) as [w2 [td|e2]]; [|discriminate].
  destruct (buildBlock _ _ _) as [w3 [builder|e3]] eqn:Hbuild; [|discriminate].
  destruct (txsByPriceAndNonce _ _ _ _) as [w5 [txs|e5]]; [|discriminate].
  cbn [outcome final]. intros H. injection H as <-.
  exists builder, (startOpts parent headerOverrides wds baseFee td), w2, w3.
  split; [exact Hbuild|]. split; [reflexivity|].
  unfold seed. rewrite addTxs_this. reflexivity.
Qed.

(** X2: when [start] returns an identifier, the registry is the one it
    found with exactly one entry appended at the end: that identifier, which
    [randomBytes(8)] produced, with the builder [vm.buildBlock] returned.
    The entries that were there are kept, in order, and the pool reference
    is unchanged. *)
Theorem start_appends_entry vm parent headerOverrides wds st payloadId :
  outcome (start vm parent headerOverrides wds st) = Return payloadId ->
  let st' := final (start vm parent headerOverrides wds st) in
  exists builder opts w w',
    buildBlock vm opts w = (w', Return builder) /\
    payloadId = snd (randomBytes 8 w') /\
    pendingPayloads (this st') = pendingPayloads (this st) ++ [(payloadId, builder)] /\
    txPool (this st') = txPool (this st) /\
    registered payloadId (pendingPayloads (this st')).
Proof.
  intros Hret st'. subst st'.
  destruct (start_return _ _ _ _ _ _ Hret) as (builder & opts & w & w' & Hb & Hid & Hthis).
  exists builder, opts, w, w'. rewrite Hthis. cbn.
  repeat split; auto.
  exists (payloadId, builder). split.
  - apply in_or_app. right. left. reflexivity.
  - apply bool_decide_eq_true. reflexivity.
Qed.

(** X3: looking up the identifier [start] returned finds the builder of that
    very call when the identifier was not registered before; when an entry
    with the same identifier was already there, the lookup keeps finding
    that earlier entry, so [build] and [stop] act on the earlier builder. *)
Theorem start_lookup vm parent headerOverrides wds st payloadId :
  outcome (start vm parent headerOverrides wds st) = Return payloadId ->
  let registry := pendingPayloads (this (final (start vm parent headerOverrides wds st))) in
  (~ registered payloadId (pendingPayloads (this st)) ->
   exists builder opts w w',
     buildBlock vm opts w = (w', Return builder) /\
     findPayload payloadId registry = Some (payloadId, builder)) /\
  (forall p, findPayload payloadId (pendingPayloads (this st)) = Some p ->
             findPayload payloadId registry = Some p) /\
  (forall other, other <> payloadId ->
     findPayload other registry = findPayload other (pendingPayloads (this st))).
Proof.
  intros Hret registry. subst registry.
  destruct (start_return _ _ _ _ _ _ Hret) as (builder & opts & w & w' & Hb & Hid & Hthis).
  rewrite Hthis. cbn [pendingPayloads]. split; [|split].
  - intros Hfresh. exists builder, opts, w, w'. split; [exact Hb|].
    rewrite findPayload_app. apply findPayload_None in Hfresh. rewrite Hfresh.
    unfold findPayload, Buffer_equals. cbn.
    rewrite bool_decide_eq_true_2; reflexivity.
  - intros p Hp. rewrite findPayload_app, Hp. reflexivity.
  - intros other Hne. rewrite findPayload_app.
    destruct (findPayload other (pendingPayloads (this st))); [reflexivity|].
    unfold findPayload, Buffer_equals. cbn.
    rewrite bool_decide_eq_false_2; [reflexivity|congruence].
Qed.

(** X4: a [start] that throws leaves the registry as it was unless it is the
    pool query that threw: that query comes after the new entry was pushed,
    so the entry stays registered although no identifier was returned, and
    no transaction had been attempted. *)
Theorem start_failure_registry vm parent headerOverrides wds st e :
  outcome (start vm parent headerOverrides wds st) = Throw e ->
  let r := start vm parent headerOverrides wds st in
  (this (final r) = this st /\
   forall pool vm' fee, ~ In (Call_txsByPriceAndNonce pool vm' fee) (events r)) \/
  (exists payloadId builder before fee w w',
     events r = before ++ [Call_txsByPriceAndNonce (txPool (this st)) vm fee] /\
     txsByPriceAndNonce (txPool (this st)) vm fee w = (w', Throw e) /\
     pendingPayloads (this (final r)) =
       pendingPayloads (this st) ++ [(payloadId, builder)] /\
     List.filter isAddTransaction (events r) = []).
Proof.
  intros Hthrow r. subst r. revert Hthrow. rewrite start_steps. cbv zeta.
  destruct (nextBaseFee vm parent (world st)) as [baseFee|e0];
    [|intros _; left; split; [reflexivity|intros pool vm' fee []]].
  destruct (setStateRoot _ _ _) as [w1 [[]|e1]];
    [|intros _; left; split; [reflexivity|];
      intros pool vm' fee [H|[]]; discriminate].
  destruct (getTotalDifficulty vm) as [getTD|];
    [|intros _; left; split; [reflexivity|];
      intros pool vm' fee [H|[]]; discriminate].
  destruct (getTD _ _) as [w2 [td|e2]];
    [|intros _; left; split; [reflexivity|];
      intros pool vm' fee [H|[H|[]]]; discriminate].
  destruct (buildBlock _ _ _) as [w3 [builder|e3]];
    [|intros _; left; split; [reflexivity|];
      intros pool vm' fee [H|[H|[H|[]]]]; discriminate].
  destruct (txsByPriceAndNonce _ _ _ _) as [w5 [txs|e5]] eqn:Hpool; [discriminate|].
  cbn [outcome final events this pendingPayloads]. intros H. injection H as <-.
  right. exists (snd (randomBytes 8 w3)), builder.
  exists [Call_setStateRoot vm (header_stateRoot parent);
          Call_getTotalDifficulty vm (block_hash parent);
          Call_buildBlock vm (startOpts parent headerOverrides wds baseFee td);
          Call_randomBytes 8].
  exists baseFee, (fst (randomBytes 8 w3)), w5.
  repeat split; auto.
Qed.

(** X5: the header fields [start] hands to [vm.buildBlock] are the parent's
    number plus one and the parent's gas limit, with the caller's overrides,
    the parent block and the withdrawals passed on and the block kept out of
    the blockchain; the pool is asked for candidates with the very base fee
    put in that header, on the same VM and on the object's own pool. *)
Theorem start_header_and_pool_fee vm parent headerOverrides wds st vm' opts :
  In (Call_buildBlock vm' opts) (events (start vm parent headerOverrides wds st)) ->
  number (headerData opts) = header_number parent + 1 /\
  gasLimit (headerData opts) = header_gasLimit parent /\
  overrides (headerData opts) = headerOverrides /\
  parentBlock opts = parent /\
  withdrawals opts = wds /\
  putBlockIntoBlockchain (blockOpts opts) = false /\
  (forall pool vm'' fee,
     In (Call_txsByPriceAndNonce pool vm'' fee)
        (events (start vm parent headerOverrides wds st)) ->
     pool = txPool (this st) /\ vm'' = vm /\ fee = baseFeePerGas (headerData opts)).
Proof.
  intros Hin.
  destruct (start_buildBlock _ _ _ _ _ _ _ Hin)
    as (baseFee & w1 & getTD & w2 & td & Hfee & Hreset & HTD & Htd & -> & ->).
  do 6 (split; [reflexivity|]).
  intros pool vm'' fee. rewrite start_steps. cbv zeta. rewrite Hfee, Hreset, HTD, Htd.
  destruct (buildBlock _ _ _) as [w3 [builder|e3]];
    [destruct (txsByPriceAndNonce _ _ _ _) as [w5 [txs|e5]]|]; cbn.
  - intros [H|[H|[H|[H|[H|[H|Hpass]]]]]]; try discriminate.
    + injection H as <- <- <-. auto.
    + apply (Forall_In _ _ _ (seed_events _ _ _ _)) in Hpass. destruct Hpass.
  - intros [H|[H|[H|[H|[H|[]]]]]]; try discriminate.
    injection H as <- <- <-. auto.
  - intros [H|[H|[H|[]]]]; discriminate.
Qed.

(** X6: [stop] is idempotent: a second [stop(id)] finds nothing, calls no
    [revert] and leaves the state as the first one left it. *)
Theorem stop_twice payloadId st :
  stop payloadId (final (stop payloadId st)) =
  mkRes (Return tt) (final (stop payloadId st)) [].
Proof.
  apply stop_absent, findPayload_None.
  destruct (findPayload payloadId (pendingPayloads (this st))) as [p|] eqn:Hfind.
  - rewrite (stop_found _ _ _ Hfind). cbn. apply removePayload_not_registered.
  - rewrite (stop_absent _ _ Hfind). cbn. apply findPayload_None, Hfind.
Qed.

(** X7: payloads are isolated from one another: after [stop(id)], and after
    [build(id)] however it ends, looking up any other identifier gives what
    it gave before. *)
Theorem other_payloads_untouched payloadId other st :
  other <> payloadId ->
  findPayload other (pendingPayloads (this (final (stop payloadId st)))) =
    findPayload other (pendingPayloads (this st)) /\
  findPayload other (pendingPayloads (this (final (build payloadId st)))) =
    findPayload other (pendingPayloads (this st)).
Proof.
  intros Hne. split.
  - destruct (findPayload payloadId (pendingPayloads (this st))) as [p|] eqn:Hfind.
    + rewrite (stop_found _ _ _ Hfind). cbn. apply findPayload_removePayload, Hne.
    + rewrite (stop_absent _ _ Hfind). reflexivity.
  - destruct (findPayload payloadId (pendingPayloads (this st))) as [p|] eqn:Hfind.
    + rewrite (build_found _ _ _ Hfind). cbv zeta.
      destruct (txsByPriceAndNonce _ _ _ _) as [w1 [pool|e1]]; cbn; [|reflexivity].
      destruct (builder_build _ _) as [w2 [block|e2]]; cbn; [|reflexivity].
      apply findPayload_removePayload, Hne.
    + rewrite (build_absent _ _ Hfind). reflexivity.
Qed.

(** X8: when the pool query of [build(id)] throws, [build] throws that
    error at once: no transaction is attempted, the builder is not asked to
    build and the payload stays registered. *)
Theorem build_pool_failure payloadId st p w e :
  findPayload payloadId (pendingPayloads (this st)) = Some p ->
  txsByPriceAndNonce (txPool (this st)) (builder_vm (snd p) (world st))
    (baseFeePerGas (builder_headerData (snd p) (world st))) (world st) = (w, Throw e) ->
  let r := build payloadId st in
  outcome r = Throw e /\
  final r = mkState w (this st) /\
  List.filter isAddTransaction (events r) = [] /\
  List.filter isFinalize (events r) = [] /\
  findPayload payloadId (pendingPayloads (this (final r))) = Some p.
Proof.
  intros Hfind Hpool r. subst r.
  rewrite (build_found _ _ _ Hfind). cbv zeta. rewrite Hpool. cbn. auto.
Qed.

(** X9: the block [build(id)] returns is the one the first matching
    builder's [build()] returned, and the receipts are the builder's
    [transactionReceipts] read after that call, in the world [build] leaves;
    the last thing [build] does is to log that block. *)
Theorem build_returns_builder_result payloadId st block receipts :
  outcome (build payloadId st) = Return (Some (block, receipts)) ->
  exists p w before,
    findPayload payloadId (pendingPayloads (this st)) = Some p /\
    builder_build (snd p) w = (world (final (build payloadId st)), Return block) /\
    receipts = transactionReceipts (snd p) (world (final (build payloadId st))) /\
    events (build payloadId st) = before ++ [Call_build (snd p); Log_info (Built block)].
Proof.
  destruct (findPayload payloadId (pendingPayloads (this st))) as [p|] eqn:Hfind.
  - rewrite (build_found _ _ _ Hfind). cbv zeta.
    destruct (txsByPriceAndNonce _ _ _ _) as [w1 [pool|e1]]; [|discriminate].
    destruct (builder_build _ _) as [w2 [blk|e2]] eqn:Hbuild; [|discriminate].
    cbn [outcome final events world]. intros H. injection H as <- <-.
    eexists p, _, _. split; [reflexivity|]. split; [exact Hbuild|].
    split; reflexivity.
  - rewrite (build_absent _ _ Hfind). discriminate.
Qed.

Lemma start_registry_incl vm parent headerOverrides wds st p :
  In p (pendingPayloads (this st)) ->
  In p (pendingPayloads (this (final (start vm parent headerOverrides wds st)))).
Proof.
  intros Hin. rewrite start_steps. cbv zeta.
  repeat match goal with
         | |- context [match ?x with _ => _ end] => destruct x
         end; cbn [final this pendingPayloads]; auto;
    try (unfold seed; rewrite addTxs_this; cbn);
    apply in_or_app; auto.
Qed.

(** X10: only [start] adds to the registry and only [stop] and [build]
    take from it: every entry present before a [start] is present after it,
    however it ends, and every entry present after a [stop] or a [build] was
    present before. *)
Theorem registry_grows_only_by_start st p :
  (forall vm parent headerOverrides wds,
     In p (pendingPayloads (this st)) ->
     In p (pendingPayloads (this (final (start vm parent headerOverrides wds st))))) /\
  (forall payloadId,
     In p (pendingPayloads (this (final (stop payloadId st)))) ->
     In p (pendingPayloads (this st))) /\
  (forall payloadId,
     In p (pendingPayloads (this (final (build payloadId st)))) ->
     In p (pendingPayloads (this st))).
Proof.
  split; [|split].
  - intros vm parent headerOverrides wds. apply start_registry_incl.
  - intros payloadId. apply stop_registry_incl.
  - intros payloadId. apply build_registry_incl.
Qed.

(** X11: [start] followed by [stop] of the identifier it returned leaves the
    registry without any entry for that identifier: it is the registry found
    before [start] when the identifier was fresh, and otherwise that
    registry less the earlier entries that carried the same identifier.  The
    one [revert] goes to the builder the lookup finds. *)
Theorem start_then_stop vm parent headerOverrides wds st payloadId :
  outcome (start vm parent headerOverrides wds st) = Return payloadId ->
  let st' := final (start vm parent headerOverrides wds st) in
  pendingPayloads (this (final (stop payloadId st'))) =
    removePayload payloadId (pendingPayloads (this st)) /\
  (~ registered payloadId (pendingPayloads (this st)) ->
   pendingPayloads (this (final (stop payloadId st'))) = pendingPayloads (this st)) /\
  exists p, findPayload payloadId (pendingPayloads (this st')) = Some p /\
            events (stop payloadId st') = [Call_revert (snd p)].
Proof.
  intros Hret st'.
  destruct (start_return _ _ _ _ _ _ Hret) as (builder & opts & w & w' & Hb & Hid & Hthis).
  assert (Hfound : exists p, findPayload payloadId (pendingPayloads (this st')) = Some p).
  { subst st'. rewrite Hthis. cbn [pendingPayloads]. rewrite findPayload_app.
    destruct (findPayload payloadId (pendingPayloads (this st))); [eauto|].
    unfold findPayload, Buffer_equals. cbn.
    rewrite bool_decide_eq_true_2; eauto. }
  destruct Hfound as [p Hp].
  assert (Hreg : pendingPayloads (this (final (stop payloadId st'))) =
                 removePayload payloadId (pendingPayloads (this st))).
  { rewrite (stop_found _ _ _ Hp). cbn [final this pendingPayloads].
    subst st'. rewrite Hthis. cbn [pendingPayloads].
    rewrite removePayload_app. unfold removePayload at 2, Buffer_equals. cbn.
    rewrite bool_decide_eq_true_2; [|reflexivity]. cbn. apply app_nil_r. }
  split; [exact Hreg|]. split.
  - intros Hfresh. rewrite Hreg. apply removePayload_fresh, Hfresh.
  - exists p. split; [exact Hp|]. rewrite (stop_found _ _ _ Hp). reflexivity.
Qed.

(** X12: [start] followed by a [build] of the identifier it returned that
    succeeds leaves the registry without any entry for that identifier: the
    registry found before [start] when the identifier was fresh.  The block
    returned is the one built by the builder the lookup finds, which is the
    builder of that [start] when the identifier was fresh. *)
Theorem start_then_build vm parent headerOverrides wds st payloadId result :
  outcome (start vm parent headerOverrides wds st) = Return payloadId ->
  let st' := final (start vm parent headerOverrides wds st) in
  outcome (build payloadId st') = Return (Some result) ->
  pendingPayloads (this (final (build payloadId st'))) =
    removePayload payloadId (pendingPayloads (this st)) /\
  (~ registered payloadId (pendingPayloads (this st)) ->
   pendingPayloads (this (final (build payloadId st'))) = pendingPayloads (this st) /\
   exists builder opts w w',
     buildBlock vm opts w = (w', Return builder) /\
     List.filter isFinalize (events (build payloadId st')) = [Call_build builder]).
Proof.
  intros Hret st' Hok.
  destruct (start_return _ _ _ _ _ _ Hret) as (builder & opts & w & w' & Hb & Hid & Hthis).
  assert (Hreg : pendingPayloads (this (final (build payloadId st'))) =
                 removePayload payloadId (pendingPayloads (this st))).
  { rewrite (build_success_registry _ _ _ Hok). subst st'. rewrite Hthis.
    cbn [pendingPayloads]. rewrite removePayload_app.
    unfold removePayload at 2, Buffer_equals. cbn.
    rewrite bool_decide_eq_true_2; [|reflexivity]. cbn. apply app_nil_r. }
  split; [exact Hreg|]. intros Hfresh. split.
  - rewrite Hreg. apply removePayload_fresh, Hfresh.
  - exists builder, opts, w, w'. split; [exact Hb|].
    assert (Hfind : findPayload payloadId (pendingPayloads (this st'))
                    = Some (payloadId, builder)).
    { subst st'. rewrite Hthis. cbn [pendingPayloads]. rewrite findPayload_app.
      apply findPayload_None in Hfresh. rewrite Hfresh.
      unfold findPayload, Buffer_equals. cbn.
      rewrite bool_decide_eq_true_2; reflexivity. }
    revert Hok. rewrite (build_found _ _ _ Hfind). cbv zeta.
    destruct (txsByPriceAndNonce _ _ _ _) as [w1 [pool|e1]]; cbn; [|discriminate].
    destruct (builder_build _ _) as [w2 [block|e2]]; cbn; [|discriminate].
    intros _. rewrite List.filter_app.
    rewrite (pass_no_finalize _ _ _ (topUp_events _ _ _)). reflexivity.
Qed.

End Properties.

(** * The properties on the reference environment *)
Module Examples.
Import Ref.
#[local] Existing Instance env.

(** ** The inclusion pass *)

(** With 30,000,000 gas in the block and 29,979,000 used, [txB] (29,999,000)
    does not fit and exactly 21,000 gas remain: the pass of [start] and the
    pass of [build] both go on, and [txC] (21,000) is attempted. *)
Lemma full_below_21000_witness :
  addTransaction 0%nat txB (world afterA)
    = (world afterA, Throw (mkError gasLimitExceeded)) /\
  21000 <= header_gasLimit parent - gasUsed 0%nat (world afterA) /\
  seed 0%nat parent [txB; txC] afterA =
    after [Call_addTransaction 0%nat txB]
      (seed 0%nat parent [txC] afterA) /\
  topUp 0%nat [txB; txC] afterA =
    after [Call_addTransaction 0%nat txB]
      (topUp 0%nat [txC] afterA).
Proof.
  assert (Hadd : addTransaction 0%nat txB (world afterA)
                 = (world afterA, Throw (mkError gasLimitExceeded))) by reflexivity.
  assert (Hleft : 21000 <= header_gasLimit parent
                           - gasUsed 0%nat (world afterA))
    by (vm_compute; discriminate).
  destruct (full_below_21000 (C := env) 0%nat parent txB [txC] afterA (world afterA)
              (mkError gasLimitExceeded) Hadd eq_refl) as (_ & Hseed & _ & Htop).
  split; [exact Hadd|]. split; [exact Hleft|]. split.
  - apply Hseed. exact Hleft.
  - apply Htop. exact Hleft.
Defined.

(** A threshold of "at most 21,000" fails at a remainder of exactly 21,000:
    the failed candidate [txB] leaves gasLimit - gasUsed = 21000, yet the
    block is not classified full and the next candidate [txC] is attempted,
    in the pass of [start] and in the pass of [build]; [start] with the three
    in the pool ends with all the gas used. *)
Lemma full_at_21000_counterexample :
  addTransaction 0%nat txB (world afterA)
    = (world afterA, Throw (mkError gasLimitExceeded)) /\
  header_gasLimit parent - gasUsed 0%nat (world afterA) = 21000 /\
  gasLimit (builder_headerData 0%nat (world afterA))
    - gasUsed 0%nat (world afterA) = 21000 /\
  events (seed 0%nat parent [txB; txC] afterA) =
    [Call_addTransaction 0%nat txB; Call_addTransaction 0%nat txC] /\
  events (topUp 0%nat [txB; txC] afterA) =
    [Call_addTransaction 0%nat txB; Call_addTransaction 0%nat txC] /\
  List.filter isAddTransaction (events (started [txA; txB; txC] [id1])) =
    [Call_addTransaction 0%nat txA;
     Call_addTransaction 0%nat txB;
     Call_addTransaction 0%nat txC] /\
  gasUsed 0%nat (world (final (started [txA; txB; txC] [id1]))) = 30000000.
Proof. repeat split; vm_compute; reflexivity. Qed.

(** Below 21,000 the block is full: with 20,000 gas left the failed [txB]
    ends the pass and [txC] is not attempted. *)
Example full_at_20000 :
  events (seed 0%nat parent [txB; txC] afterD) =
    [Call_addTransaction 0%nat txB;
     Log_info (AssembledFull (Some 20000))] /\
  events (topUp 0%nat [txB; txC] afterD) =
    [Call_addTransaction 0%nat txB;
     Log_info (AssembledFull None)].
Proof. split; vm_compute; reflexivity. Qed.

(** An invalid transaction is logged and skipped, and the next is added. *)
Lemma rejected_tx_is_skipped_witness :
  addTransaction 0%nat txBad (world afterEmpty)
    = (world afterEmpty, Throw (mkError "invalid nonce")) /\
  message (mkError "invalid nonce") <> gasLimitExceeded /\
  seed 0%nat parent [txBad; txC] afterEmpty =
    after [Call_addTransaction 0%nat txBad;
           Log_debug (Skipping (tx_hash txBad)
                                    (mkError "invalid nonce"))]
      (seed 0%nat parent [txC] afterEmpty) /\
  outcome (seed 0%nat parent [txBad; txC] afterEmpty) = Return tt.
Proof.
  assert (Hadd : addTransaction 0%nat txBad (world afterEmpty)
                 = (world afterEmpty, Throw (mkError "invalid nonce"))) by reflexivity.
  assert (Hmsg : message (mkError "invalid nonce") <> gasLimitExceeded)
    by (vm_compute; discriminate).
  destruct (rejected_tx_is_skipped (C := env) 0%nat
              (fun _ => blkGasLimit parent)
              (fun lim used => AssembledFull (C := env) (Some (lim - used)))
              txBad [txC] afterEmpty (world afterEmpty) (mkError "invalid nonce")
              Hadd Hmsg) as (Hskip & Hret & _).
  split; [exact Hadd|]. split; [exact Hmsg|]. split; [exact Hskip|exact Hret].
Defined.

Example rejected_then_added :
  gasUsed 0%nat
    (world (final (seed 0%nat parent [txBad; txC] afterEmpty))) = 21000.
Proof. vm_compute. reflexivity. Qed.

(** ** The registry *)


Example build_unknown_id :
  build idUnknown afterEmpty = mkRes (Return None) afterEmpty [] /\
  gasUsed 0%nat (world (final (build id1 afterEmpty))) = 0.
Proof. split; reflexivity. Qed.

(** The builder refuses to seal: [build] throws and the payload stays. *)
Lemma finalize_failure_keeps_payload_witness :
  let st := withFailures true false afterEmpty in
  findPayload id1 (pendingPayloads (this st)) = Some (id1, 0%nat) /\
  txsByPriceAndNonce tt (builder_vm 0%nat (world st))
    (baseFeePerGas (builder_headerData 0%nat (world st))) (world st)
    = (world st, Return []) /\
  builder_build 0%nat
    (world (final (topUp 0%nat (topUpTxs 0%nat [] (world st)) (mkState (world st) (this st)))))
    = (world st, Throw (mkError "finalize failed")) /\
  outcome (build id1 st) = Throw (mkError "finalize failed") /\
  this (final (build id1 st)) = this st /\
  findPayload id1 (pendingPayloads (this (final (build id1 st)))) = Some (id1, 0%nat).
Proof.
  intros st.
  assert (Hfind : findPayload id1 (pendingPayloads (this st)) = Some (id1, 0%nat))
    by reflexivity.
  assert (Hpool : txsByPriceAndNonce tt (builder_vm 0%nat (world st))
            (baseFeePerGas (builder_headerData 0%nat (world st))) (world st)
            = (world st, Return [])) by reflexivity.
  assert (Hfin : builder_build 0%nat
            (world (final (topUp 0%nat (topUpTxs 0%nat [] (world st))
                             (mkState (world st) (this st)))))
            = (world st, Throw (mkError "finalize failed"))) by reflexivity.
  destruct (finalize_failure_keeps_payload (C := env) id1 st (id1, 0%nat) []
              (world st) (world st) (mkError "finalize failed") Hfind Hpool Hfin)
    as (Hthrow & Hthis & _ & Hstill & _).
  repeat split; assumption.
Defined.

(** Re-polling: the pool holds the two included transactions and a new one;
    only the new one is attempted. *)
Lemma build_attempts_only_new_witness :
  let st := withPool [t1; t2; t4] afterPartial in
  findPayload id1 (pendingPayloads (this st)) = Some (id1, 0%nat) /\
  In (Call_addTransaction 0%nat t4) (events (build id1 st)) /\
  exists w1 pool,
    txsByPriceAndNonce tt (builder_vm 0%nat (world st))
      (baseFeePerGas (builder_headerData 0%nat (world st))) (world st)
      = (w1, Return pool) /\
    In t4 pool /\
    forall t, In t (transactions 0%nat w1) -> tx_hash t <> tx_hash t4.
Proof.
  intros st.
  assert (Hfind : findPayload id1 (pendingPayloads (this st)) = Some (id1, 0%nat))
    by reflexivity.
  assert (Hin : In (Call_addTransaction 0%nat t4) (events (build id1 st)))
    by (vm_compute; do 2 right; left; reflexivity).
  destruct (build_attempts_only_new (C := env) id1 st (id1, 0%nat) 0%nat t4 Hfind Hin)
    as (_ & Hnew).
  split; [exact Hfind|]. split; [exact Hin|exact Hnew].
Defined.

Example repoll_adds_only_new :
  List.filter isAddTransaction
    (events (build id1 (withPool [t1; t2; t4] afterPartial))) =
  [Call_addTransaction 0%nat t4].
Proof. vm_compute. reflexivity. Qed.

(** [stop] while the builder's [revert] fails, and [stop] of an unknown
    identifier. *)
Lemma stop_never_fails_witness :
  let st := withFailures false true afterEmpty in
  builder_revert 0%nat (world st) = (world st, Throw (mkError "revert failed")) /\
  outcome (stop id1 st) = Return tt /\
  pendingPayloads (this (final (stop id1 st))) = [] /\
  build id1 (final (stop id1 st)) = mkRes (Return None) (final (stop id1 st)) [] /\
  stop idUnknown st = mkRes (Return tt) st [].
Proof.
  intros st.
  destruct (stop_never_fails (C := env) id1 st) as (Hret & _ & Hfound & _ & Hbuild).
  destruct (Hfound (id1, 0%nat) eq_refl) as (_ & _ & Hreg).
  destruct (stop_never_fails (C := env) idUnknown st) as (_ & Habsent & _).
  split; [reflexivity|]. split; [exact Hret|]. split; [exact Hreg|].
  split; [exact Hbuild|]. apply Habsent. reflexivity.
Defined.

(** Two payloads under one identifier: one [stop], or one [build], removes
    both entries and reverts, or seals, the first builder only. *)
Lemma removal_is_exhaustive_witness :
  pendingPayloads (this collided) = [(id1, 0%nat); (id1, 1%nat)] /\
  (forall p, In p (pendingPayloads (this (final (stop id1 collided)))) <->
             In p (pendingPayloads (this collided)) /\ fst p <> id1) /\
  pendingPayloads (this (final (stop id1 collided))) = [] /\
  events (stop id1 collided) = [Call_revert 0%nat] /\
  pendingPayloads (this (final (build id1 collided))) = [] /\
  (exists p, findPayload id1 (pendingPayloads (this collided)) = Some p /\
             List.filter isFinalize (events (build id1 collided)) = [Call_build (snd p)]).
Proof.
  destruct (removal_is_exhaustive (C := env) id1 collided) as (Hstop & _ & Hbuild).
  destruct (Hbuild (emptyBlock, []) eq_refl) as (_ & Hone).
  split; [reflexivity|]. split; [exact Hstop|]. split; [reflexivity|].
  split; [reflexivity|]. split; [reflexivity|exact Hone].
Defined.

(** ** start *)


(** Before the upgrade it carries none. *)
Example start_baseFee_absent :
  List.filter isBuildBlock (events (start vm parent tt None (fresh preLondon))) =
  [Call_buildBlock vm
     (mkBuildBlockOpts parent (mkHeaderData tt 101 30000000 None) None
        (mkBlockOpts false 0))].
Proof. vm_compute. reflexivity. Qed.

(** No [getTotalDifficulty]: [start] throws after the reset, before any
    builder exists. *)
Lemma start_without_getTotalDifficulty_witness :
  let st := fresh (worldWith [t1] [id1]) in
  getTotalDifficulty vmNoTD = None /\
  start vmNoTD parent tt None st =
    mkRes (Throw (mkError noTotalDifficulty))
      (mkState (withStateRoot [Byte.xaa] (world st)) (this st))
      [Call_setStateRoot vmNoTD [Byte.xaa]] /\
  this (final (start vmNoTD parent tt None st)) = this st.
Proof.
  intros st.
  destruct (start_without_getTotalDifficulty (C := env) vmNoTD parent tt None st eq_refl)
    as (_ & Hthis & _ & Hcheck).
  split; [reflexivity|]. split; [|exact Hthis].
  apply (Hcheck (Some 7)); reflexivity.
Defined.


(** ** The scenarios of the specification *)

(** Partial fill: two of three transactions fit, 10,000,000 gas remain and
    the block is not flagged full. *)
Example partial_fill :
  List.filter isAddTransaction (events (started [t1; t2; t3] [id1])) =
    [Call_addTransaction 0%nat t1; Call_addTransaction 0%nat t2;
     Call_addTransaction 0%nat t3] /\
  transactions 0%nat (world afterPartial) = [t1; t2] /\
  gasUsed 0%nat (world afterPartial) = 20000000 /\
  List.filter isFullLog (events (started [t1; t2; t3] [id1])) = [].
Proof. repeat split; vm_compute; reflexivity. Qed.

End Examples.

(** * Further properties on the reference environment *)
Module MoreExamples.
Import Ref RefMore.
#[local] Existing Instance Ref.env.

Lemma start_appends_entry_witness :
  outcome (started [t1; t2; t3] [id1]) = Return id1 /\
  pendingPayloads (this afterPartial) = [(id1, 0%nat)] /\
  registered id1 (pendingPayloads (this afterPartial)).
Proof.
  assert (Hret : outcome (started [t1; t2; t3] [id1]) = Return id1) by reflexivity.
  destruct (start_appends_entry (C := Ref.env) vm parent tt None
              (fresh (worldWith [t1; t2; t3] [id1])) id1 Hret)
    as (builder & opts & w & w' & _ & _ & Hreg & _ & Hin).
  split; [exact Hret|]. split; [reflexivity|exact Hin].
Defined.

(** A second [start] that draws the identifier already in use: the lookup
    still finds the first builder. *)
Lemma start_lookup_witness :
  outcome (start vm parent tt None (final (started [] [id1; id1]))) = Return id1 /\
  findPayload id1 (pendingPayloads (this (final (started [] [id1; id1]))))
    = Some (id1, 0%nat) /\
  pendingPayloads (this collided) = [(id1, 0%nat); (id1, 1%nat)] /\
  findPayload id1 (pendingPayloads (this collided)) = Some (id1, 0%nat).
Proof.
  assert (Hret : outcome (start vm parent tt None (final (started [] [id1; id1])))
                 = Return id1) by reflexivity.
  destruct (start_lookup (C := Ref.env) vm parent tt None
              (final (started [] [id1; id1])) id1 Hret) as (_ & Hold & _).
  split; [exact Hret|]. split; [reflexivity|]. split; [reflexivity|].
  apply Hold. reflexivity.
Defined.

Lemma start_header_and_pool_fee_witness :
  In (Call_buildBlock vm parentOpts) (events (started [] [id1])) /\
  number (headerData parentOpts) = header_number parent + 1 /\
  gasLimit (headerData parentOpts) = header_gasLimit parent /\
  In (Call_txsByPriceAndNonce tt vm (Some 7)) (events (started [] [id1])).
Proof.
  assert (Hin : In (Call_buildBlock vm parentOpts) (events (started [] [id1])))
    by (vm_compute; do 2 right; left; reflexivity).
  destruct (start_header_and_pool_fee (C := Ref.env) vm parent tt None
              (fresh (worldWith [] [id1])) vm parentOpts Hin)
    as (Hnumber & Hlimit & _).
  split; [exact Hin|]. split; [exact Hnumber|]. split; [exact Hlimit|].
  vm_compute. do 4 right. left. reflexivity.
Defined.

Lemma other_payloads_untouched_witness :
  id3 <> id1 /\
  pendingPayloads (this twoPayloads) = [(id1, 0%nat); (id3, 1%nat)] /\
  findPayload id3 (pendingPayloads (this (final (stop id1 twoPayloads))))
    = findPayload id3 (pendingPayloads (this twoPayloads)) /\
  findPayload id3 (pendingPayloads (this (final (build id1 twoPayloads))))
    = findPayload id3 (pendingPayloads (this twoPayloads)) /\
  findPayload id3 (pendingPayloads (this (final (build id1 twoPayloads))))
    = Some (id3, 1%nat).
Proof.
  assert (Hne : id3 <> id1) by discriminate.
  destruct (other_payloads_untouched (C := Ref.env) id1 id3 twoPayloads Hne)
    as (Hstop & Hbuild).
  split; [exact Hne|]. split; [reflexivity|]. split; [exact Hstop|].
  split; [exact Hbuild|reflexivity].
Defined.

Lemma build_returns_builder_result_witness :
  outcome (build id1 afterPartial) = Return (Some (partialBlock, [[Byte.x01]; [Byte.x02]])) /\
  exists p w before,
    findPayload id1 (pendingPayloads (this afterPartial)) = Some p /\
    builder_build (snd p) w = (world (final (build id1 afterPartial)), Return partialBlock) /\
    [[Byte.x01]; [Byte.x02]] =
      transactionReceipts (snd p) (world (final (build id1 afterPartial))) /\
    events (build id1 afterPartial) =
      before ++ [Call_build (snd p); Log_info (Built partialBlock)].
Proof.
  assert (Hok : outcome (build id1 afterPartial)
                = Return (Some (partialBlock, [[Byte.x01]; [Byte.x02]]))) by reflexivity.
  split; [exact Hok|].
  exact (build_returns_builder_result (C := Ref.env) id1 afterPartial partialBlock
           [[Byte.x01]; [Byte.x02]] Hok).
Defined.

Lemma registry_grows_only_by_start_witness :
  In (id1, 0%nat) (pendingPayloads (this afterEmpty)) /\
  In (id1, 0%nat) (pendingPayloads (this (final (start vm parent tt None afterEmpty)))) /\
  In (id3, 1%nat) (pendingPayloads (this (final (stop id1 twoPayloads)))) /\
  In (id3, 1%nat) (pendingPayloads (this twoPayloads)).
Proof.
  assert (Hin : In (id1, 0%nat) (pendingPayloads (this afterEmpty)))
    by (left; reflexivity).
  assert (Hleft : In (id3, 1%nat) (pendingPayloads (this (final (stop id1 twoPayloads)))))
    by (left; reflexivity).
  destruct (registry_grows_only_by_start (C := Ref.env) afterEmpty (id1, 0%nat))
    as (Hstart & _ & _).
  destruct (registry_grows_only_by_start (C := Ref.env) twoPayloads (id3, 1%nat))
    as (_ & Hstop & _).
  split; [exact Hin|]. split; [exact (Hstart vm parent tt None Hin)|].
  split; [exact Hleft|exact (Hstop id1 Hleft)].
Defined.

Lemma start_then_stop_witness :
  outcome (started [t1; t2; t3] [id1]) = Return id1 /\
  pendingPayloads (this (final (stop id1 afterPartial))) = [] /\
  events (stop id1 afterPartial) = [Call_revert 0%nat].
Proof.
  assert (Hret : outcome (started [t1; t2; t3] [id1]) = Return id1) by reflexivity.
  destruct (start_then_stop (C := Ref.env) vm parent tt None
              (fresh (worldWith [t1; t2; t3] [id1])) id1 Hret) as (_ & Hfresh & _).
  split; [exact Hret|]. split; [|reflexivity].
  apply Hfresh. intros [p [[] _]].
Defined.

(** The spec's full-block scenario with 20,000 gas left: the pass stops at
    the candidate that does not fit. *)
Example pass_stops_when_full :
  List.filter isAddTransaction (events (seed 0%nat parent [txB; txC] afterD)) =
    [Call_addTransaction 0%nat txB] /\
  List.filter isAddTransaction (events (seed 0%nat parent [txBad; txB; txC] afterA)) =
    [Call_addTransaction 0%nat txBad; Call_addTransaction 0%nat txB;
     Call_addTransaction 0%nat txC].
Proof. split; vm_compute; reflexivity. Qed.

Lemma start_then_build_witness :
  outcome (started [] [id1]) = Return id1 /\
  outcome (build id1 afterEmpty) = Return (Some (emptyBlock, [])) /\
  pendingPayloads (this (final (build id1 afterEmpty))) = [] /\
  exists builder opts w w',
    buildBlock vm opts w = (w', Return builder) /\
    List.filter isFinalize (events (build id1 afterEmpty)) = [Call_build builder].
Proof.
  assert (Hret : outcome (started [] [id1]) = Return id1) by reflexivity.
  assert (Hok : outcome (build id1 afterEmpty) = Return (Some (emptyBlock, [])))
    by reflexivity.
  assert (Hfresh : ~ registered id1 (pendingPayloads (this (fresh (worldWith [] [id1])))))
    by (intros [p [[] _]]).
  destruct (start_then_build (C := Ref.env) vm parent tt None
              (fresh (worldWith [] [id1])) id1 (emptyBlock, []) Hret Hok) as (_ & Hround).
  destruct (Hround Hfresh) as (Hreg & Hbuilder).
  split; [exact Hret|]. split; [exact Hok|]. split; [exact Hreg|exact Hbuilder].
Defined.

End MoreExamples.

(** * The pool out of service *)
Module DownExamples.
Import Ref.

(** [start] throws the pool's error; the payload it had pushed stays. *)
Lemma start_failure_registry_witness :
  outcome RefDown.started = Throw (mkError RefDown.poolDown) /\
  pendingPayloads (this (final RefDown.started)) = [(id1, 0%nat)] /\
  List.filter (isAddTransaction (C := RefDown.env)) (events RefDown.started) = [].
Proof.
  assert (Hthrow : outcome RefDown.started = Throw (mkError RefDown.poolDown))
    by reflexivity.
  destruct (start_failure_registry (C := RefDown.env) vm parent tt None
              (RefDown.fresh (worldWith [t1] [id1])) (mkError RefDown.poolDown) Hthrow)
    as [[_ Hnone]|(payloadId & builder & before & fee & w & w' & _ & _ & _ & Hno)].
  - exfalso. apply (Hnone tt vm (Some 7)). vm_compute. do 4 right. left. reflexivity.
  - split; [exact Hthrow|]. split; [reflexivity|exact Hno].
Defined.

(** [build] of the payload so left: the pool's error again, and nothing
    else done. *)
Lemma build_pool_failure_witness :
  let st := final RefDown.started in
  findPayload (C := RefDown.env) id1 (pendingPayloads (this st)) = Some (id1, 0%nat) /\
  outcome (build (C := RefDown.env) id1 st) = Throw (mkError RefDown.poolDown) /\
  final (build (C := RefDown.env) id1 st) = st /\
  findPayload (C := RefDown.env) id1
    (pendingPayloads (this (final (build (C := RefDown.env) id1 st)))) = Some (id1, 0%nat).
Proof.
  intros st.
  assert (Hfind : findPayload (C := RefDown.env) id1 (pendingPayloads (this st))
                  = Some (id1, 0%nat)) by reflexivity.
  destruct (build_pool_failure (C := RefDown.env) id1 st (id1, 0%nat) (world st)
              (mkError RefDown.poolDown) Hfind eq_refl)
    as (Hthrow & Hfinal & _ & _ & Hstill).
  split; [exact Hfind|]. split; [exact Hthrow|]. split; [|exact Hstill].
  rewrite Hfinal. reflexivity.
Defined.

End DownExamples.

(** * Properties of the fork schedule *)
Module GethGenesisFacts.
Import GethGenesis.

Lemma insertByBlock_perm hf l : Permutation (insertByBlock hf l) (hf :: l).
Proof.
  induction l as [|x l IH]; [reflexivity|]. cbn.
  destruct (blockNumber hf <=? blockNumber x); [reflexivity|].
  rewrite IH. apply perm_swap.
Qed.

Lemma sortByBlock_perm l : Permutation (sortByBlock l) l.
Proof.
  induction l as [|x l IH]; [reflexivity|]. cbn.
  rewrite insertByBlock_perm. apply perm_skip, IH.
Qed.

Lemma insertByBlock_sorted hf l :
  StronglySorted blockLe l -> StronglySorted blockLe (insertByBlock hf l).
Proof.
  induction 1 as [|x l Hl IH Hx]; cbn.
  - constructor; constructor.
  - destruct (blockNumber hf <=? blockNumber x) eqn:Hle.
    + apply Z.leb_le in Hle. constructor; [constructor; assumption|].
      constructor; [exact Hle|].
      eapply Forall_impl; [exact Hx|]. unfold blockLe. intros; lia.
    + apply Z.leb_gt in Hle. constructor; [exact IH|].
      apply (Permutation_Forall (Permutation_sym (insertByBlock_perm hf l))).
      constructor; [unfold blockLe; lia|exact Hx].
Qed.

Lemma sortByBlock_sorted l : StronglySorted blockLe (sortByBlock l).
Proof.
  induction l as [|x l IH]; [constructor|]. cbn. apply insertByBlock_sorted, IH.
Qed.

Lemma forkMapRev_name flag key h :
  forkMapRev flag key = Some h -> h <> Chainstart /\ h <> Merge.
Proof.
  unfold forkMapRev, forkMap. cbn [List.find fst snd].
  repeat match goal with
         | |- context [String.eqb ?a key] => destruct (String.eqb a key)
         end; intros H; inversion H; split; discriminate.
Qed.

Lemma lookup_In key config v : lookup key config = Some v -> In key (map fst config).
Proof.
  induction config as [|[k w] config IH]; [discriminate|]. cbn.
  destruct (String.eqb k key) eqn:Hk.
  - apply String.eqb_eq in Hk. auto.
  - auto.
Qed.

Lemma configHardforks_In flag config hf :
  In hf (configHardforks flag config) <->
  exists key h b,
    hf = mkHardfork h (Some b) None /\
    forkMapRev flag key = Some h /\
    lookup key config = Some (Some b).
Proof.
  unfold configHardforks. rewrite in_flat_map. split.
  - intros (key & Hkey & Hin). apply filter_In in Hkey. destruct Hkey as [Hkey _].
    destruct (forkMapRev flag key) as [h|] eqn:Hh; [|destruct Hin].
    destruct (lookup key config) as [[b|]|] eqn:Hb; [|destruct Hin|destruct Hin].
    destruct Hin as [<-|[]]. exists key, h, b. auto.
  - intros (key & h & b & -> & Hh & Hb). exists key. split.
    + apply filter_In. split; [eapply lookup_In, Hb|].
      apply bool_decide_eq_true. rewrite Hh. eexists. reflexivity.
    + rewrite Hh, Hb. left. reflexivity.
Qed.

Lemma blockForks_In flag config hf :
  In hf (blockForks flag config) <->
  hf = genesisFork \/
  exists key h b,
    hf = mkHardfork h (Some b) None /\
    forkMapRev flag key = Some h /\
    lookup key config = Some (Some b).
Proof.
  unfold blockForks. cbn [In]. rewrite <- configHardforks_In. split.
  - intros [H|H]; [left; congruence|right].
    eapply Permutation_in; [apply sortByBlock_perm|exact H].
  - intros [H|H]; [left; congruence|right].
    eapply Permutation_in; [apply Permutation_sym, sortByBlock_perm|exact H].
Qed.

Lemma blockForks_shape flag config :
  Forall (fun hf => name hf <> Merge /\ ttd hf = None /\ exists b, block hf = Some b)
    (blockForks flag config).
Proof.
  apply Forall_forall. intros hf Hin. apply list_elem_of_In, blockForks_In in Hin.
  destruct Hin as [->|(key & h & b & -> & Hh & _)].
  - cbn. repeat split; [discriminate|eauto].
  - apply forkMapRev_name in Hh. cbn. repeat split; [tauto|eauto].
Qed.

Lemma findIndex_Some {A} (test : A -> bool) l index :
  findIndex test l = Some index ->
  Forall (fun x => test x = false) (firstn index l) /\
  exists x rest, skipn index l = x :: rest /\ test x = true.
Proof.
  revert index. induction l as [|y l IH]; intros index; [discriminate|]. cbn.
  destruct (test y) eqn:Hy.
  - intros H. injection H as <-. cbn. split; [constructor|eauto].
  - destruct (findIndex test l) as [i|]; [|discriminate]. cbn.
    intros H. injection H as <-. cbn.
    destruct (IH i eq_refl) as [Hbefore Hat]. split; [constructor; assumption|exact Hat].
Qed.

Lemma findIndex_None {A} (test : A -> bool) l :
  findIndex test l = None -> Forall (fun x => test x = false) l.
Proof.
  induction l as [|y l IH]; [constructor|]. cbn.
  destruct (test y) eqn:Hy; [discriminate|].
  destruct (findIndex test l); [discriminate|]. intros _. constructor; auto.
Qed.

Lemma fold_left_orb {A} (f : A -> bool) l acc :
  fold_left (fun acc x => acc || f x) l acc = acc || existsb f l.
Proof.
  revert acc. induction l as [|x l IH]; intros acc; cbn.
  - rewrite orb_false_r. reflexivity.
  - rewrite IH, orb_assoc. reflexivity.
Qed.

(** Where the merge goes: the schedule is split in two around it. *)
Lemma hardforks_split flag config :
  match lookup "terminalTotalDifficulty" config with
  | None => hardforks flag config = blockForks flag config
  | Some v =>
      exists before after,
        hardforks flag config = before ++ mkHardfork Merge None (Some v) :: after /\
        before ++ after = blockForks flag config /\
        let justPostGenesis :=
          existsb (fun hf => postMerge flag (name hf))
            (List.filter atGenesis (blockForks flag config)) in
        Forall (fun hf => (justPostGenesis || postMerge flag (name hf))
                          && afterGenesis hf = false) before /\
        match after with
        | [] => True
        | hf :: _ => (justPostGenesis || postMerge flag (name hf)) && afterGenesis hf = true
        end
  end.
Proof.
  unfold hardforks. fold genesisFork. fold (blockForks flag config).
  destruct (lookup "terminalTotalDifficulty" config) as [v|]; [|reflexivity].
  rewrite fold_left_orb. cbn [orb].
  set (J := existsb _ _).
  destruct (findIndex _ (blockForks flag config)) as [index|] eqn:Hindex.
  - apply findIndex_Some in Hindex. destruct Hindex as [Hbefore (x & rest & Hskip & Hx)].
    exists (firstn index (blockForks flag config)), (skipn index (blockForks flag config)).
    split; [reflexivity|]. split; [apply firstn_skipn|]. split; [exact Hbefore|].
    rewrite Hskip. exact Hx.
  - apply findIndex_None in Hindex.
    exists (blockForks flag config), []. split; [reflexivity|].
    split; [apply app_nil_r|]. split; [exact Hindex|exact I].
Qed.

Lemma hardforks_before_nonempty flag config v before after :
  before ++ after = blockForks flag config ->
  Forall (fun hf => v hf && afterGenesis hf = false) before ->
  match after with
  | [] => True
  | hf :: _ => v hf && afterGenesis hf = true
  end ->
  exists rest, before = genesisFork :: rest.
Proof.
  intros Happ _ Hafter. destruct before as [|x rest].
  - cbn in Happ. subst after. unfold blockForks in Hafter.
    rewrite andb_false_r in Hafter. discriminate.
  - unfold blockForks in Happ. injection Happ as -> _. eauto.
Qed.

(** X13: every schedule starts with [chainstart] at block 0, whatever the
    config holds; the merge, when there is one, is never first. *)
Theorem schedule_starts_at_genesis flag config :
  exists rest,
    hardforks flag config = mkHardfork Chainstart (Some 0) None :: rest.
Proof.
  pose proof (hardforks_split flag config) as H.
  destruct (lookup "terminalTotalDifficulty" config) as [v|].
  - destruct H as (before & after & -> & Happ & Hbefore & Hafter).
    destruct (hardforks_before_nonempty _ _ _ _ _ Happ Hbefore Hafter) as [rest ->].
    eexists. reflexivity.
  - rewrite H. eexists. reflexivity.
Qed.

(** X14: a fork is scheduled at block [b] exactly when the config gives its
    field the number [b] (or it is [chainstart], at 0): a field that is
    [null] or missing schedules nothing, and fields that are not in
    [forkMap], such as [eip158Block], schedule nothing either. *)
Theorem fork_scheduled_iff flag config h b :
  In (mkHardfork h (Some b) None) (hardforks flag config) <->
  (h = Chainstart /\ b = 0) \/
  exists key, forkMapRev flag key = Some h /\ lookup key config = Some (Some b).
Proof.
  assert (Hblock : In (mkHardfork h (Some b) None) (blockForks flag config) <->
            (h = Chainstart /\ b = 0) \/
            exists key, forkMapRev flag key = Some h /\ lookup key config = Some (Some b)).
  { rewrite blockForks_In. split.
    - intros [H|(key & h' & b' & H & Hh & Hb)].
      + injection H as -> ->. auto.
      + injection H as -> ->. eauto.
    - intros [[-> ->]|(key & Hh & Hb)]; [left; reflexivity|right].
      exists key, h, b. auto. }
  rewrite <- Hblock. clear Hblock.
  pose proof (hardforks_split flag config) as H.
  destruct (lookup "terminalTotalDifficulty" config) as [v|].
  - destruct H as (before & after & -> & <- & _).
    rewrite !in_app_iff. cbn [In]. split; [|tauto].
    intros [H|[H|H]]; auto. discriminate.
  - rewrite H. reflexivity.
Qed.

Lemma filter_drop {A} (f : A -> bool) before x after :
  f x = false ->
  List.filter f (before ++ x :: after) = List.filter f (before ++ after).
Proof.
  intros Hx. rewrite !List.filter_app. cbn [List.filter]. rewrite Hx. reflexivity.
Qed.

(** X15: leaving the merge aside, the schedule is [chainstart] followed by
    the forks of the config in non-decreasing block order, each of them
    once; when no block of the config is negative the whole of it, with
    [chainstart], is in that order. *)
Theorem schedule_sorted_by_block flag config :
  exists sorted,
    List.filter (fun hf => negb (bool_decide (name hf = Merge))) (hardforks flag config)
      = mkHardfork Chainstart (Some 0) None :: sorted /\
    StronglySorted blockLe sorted /\
    Permutation sorted (configHardforks flag config) /\
    ((forall key b, lookup key config = Some (Some b) -> 0 <= b) ->
     StronglySorted blockLe (mkHardfork Chainstart (Some 0) None :: sorted)).
Proof.
  exists (sortByBlock (configHardforks flag config)).
  assert (Hkeep : List.filter (fun hf => negb (bool_decide (name hf = Merge)))
                    (blockForks flag config) = blockForks flag config).
  { apply forallb_filter_id. apply forallb_forall. intros hf Hin.
    pose proof (blockForks_shape flag config) as Hshape.
    rewrite Forall_forall in Hshape. apply list_elem_of_In, Hshape in Hin.
    apply negb_true_iff, bool_decide_eq_false. tauto. }
  split; [|split; [apply sortByBlock_sorted|split; [apply sortByBlock_perm|]]].
  - pose proof (hardforks_split flag config) as H.
    destruct (lookup "terminalTotalDifficulty" config) as [v|].
    + destruct H as (before & after & -> & Happ & _).
      rewrite filter_drop by reflexivity. rewrite Happ. exact Hkeep.
    + rewrite H. exact Hkeep.
  - intros Hpos. constructor; [apply sortByBlock_sorted|].
    apply Forall_forall. intros hf Hin. apply list_elem_of_In in Hin.
    eapply Permutation_in in Hin; [|apply sortByBlock_perm].
    apply configHardforks_In in Hin. destruct Hin as (key & h & b & -> & _ & Hb).
    unfold blockLe, blockNumber. cbn. exact (Hpos key b Hb).
Qed.

(** X16: the schedule has a merge entry exactly when the config defines
    [terminalTotalDifficulty]: without it the schedule is the block forks
    alone; with it, one entry [{ name: merge, ttd, block: null }] carrying
    that value is inserted, after [chainstart], into the same list of block
    forks, which is otherwise unchanged. *)
Theorem merge_entry flag config :
  (lookup "terminalTotalDifficulty" config = None ->
   hardforks flag config = blockForks flag config /\
   Forall (fun hf => name hf <> Merge) (hardforks flag config)) /\
  (forall v, lookup "terminalTotalDifficulty" config = Some v ->
     exists first before after,
       hardforks flag config =
         (first :: before) ++ mkHardfork Merge None (Some v) :: after /\
       (first :: before) ++ after = blockForks flag config /\
       Forall (fun hf => name hf <> Merge) ((first :: before) ++ after)).
Proof.
  assert (Hnone : Forall (fun hf => name hf <> Merge) (blockForks flag config)).
  { eapply Forall_impl; [apply blockForks_shape|]. cbn. tauto. }
  pose proof (hardforks_split flag config) as H.
  split.
  - intros Hno. rewrite Hno in H. rewrite H. auto.
  - intros v Hv. rewrite Hv in H.
    destruct H as (before & after & -> & Happ & Hbefore & Hafter).
    destruct (hardforks_before_nonempty _ _ _ _ _ Happ Hbefore Hafter) as [rest ->].
    exists genesisFork, rest, after. rewrite Happ. auto.
Qed.

Lemma StronglySorted_suffix (l1 l2 : list HardforkConfig) :
  StronglySorted blockLe (l1 ++ l2) -> StronglySorted blockLe l2.
Proof.
  induction l1 as [|x l1 IH]; [auto|]. cbn. intros H. inversion H. auto.
Qed.

(** X17: where the merge is placed.  Every fork after it is at a positive
    block; no fork before it is both at a positive block and dependent on
    the merge; and when a fork at block 0 depends on the merge, no fork at a
    positive block comes before it at all.  A fork depends on the merge when
    [forkMap] marks it [postMerge]. *)
Theorem merge_placement flag config v :
  lookup "terminalTotalDifficulty" config = Some v ->
  exists before after,
    hardforks flag config = before ++ mkHardfork Merge None (Some v) :: after /\
    Forall (fun hf => afterGenesis hf = true) after /\
    Forall (fun hf => afterGenesis hf = true -> postMerge flag (name hf) = false) before /\
    ((exists g, In g (blockForks flag config) /\ atGenesis g = true /\
                postMerge flag (name g) = true) ->
     Forall (fun hf => afterGenesis hf = false) before).
Proof.
  intros Hv. pose proof (hardforks_split flag config) as H. rewrite Hv in H.
  destruct H as (before & after & Heq & Happ & Hbefore & Hafter).
  exists before, after. split; [exact Heq|].
  destruct (hardforks_before_nonempty _ _ _ _ _ Happ Hbefore Hafter) as [rest ->].
  split; [|split].
  - destruct after as [|x after]; [constructor|].
    apply andb_true_iff in Hafter. destruct Hafter as [_ Hx].
    assert (Hsorted : StronglySorted blockLe (x :: after)).
    { unfold blockForks in Happ. injection Happ as Happ.
      apply (StronglySorted_suffix rest). rewrite Happ. apply sortByBlock_sorted. }
    assert (Hshape : Forall (fun hf => exists b, block hf = Some b) (x :: after)).
    { pose proof (blockForks_shape flag config) as Hall. rewrite <- Happ in Hall.
      apply Forall_app in Hall. destruct Hall as [_ Hall].
      eapply Forall_impl; [exact Hall|]. cbn. tauto. }
    inversion Hsorted as [|? ? _ Hle]; subst.
    constructor; [exact Hx|].
    inversion Hshape as [|? ? _ Hshape']; subst.
    apply Forall_forall. intros hf Hin.
    rewrite Forall_forall in Hle, Hshape'.
    specialize (Hle hf Hin). destruct (Hshape' hf Hin) as [b Hb].
    unfold blockLe, blockNumber, afterGenesis in *. rewrite Hb in *. cbn in Hle.
    destruct (block x) as [bx|]; [|discriminate]. cbn in Hle.
    apply Z.gtb_lt in Hx. apply Z.gtb_lt. lia.
  - eapply Forall_impl; [exact Hbefore|]. cbn. intros hf Htest Hpos.
    rewrite Hpos, andb_true_r in Htest. apply orb_false_iff in Htest. tauto.
  - intros (g & Hin & Hg & Hpm).
    assert (HJ : existsb (fun hf => postMerge flag (name hf))
                   (List.filter atGenesis (blockForks flag config)) = true).
    { apply existsb_exists. exists g. split; [|exact Hpm].
      apply filter_In. auto. }
    cbv zeta in Hbefore. rewrite HJ in Hbefore.
    eapply Forall_impl; [exact Hbefore|]. cbn. auto.
Qed.

(** ** The nonce *)

Lemma replicate_length n c : String.length (replicate n c) = n.
Proof. induction n as [|n IH]; cbn; congruence. Qed.

Lemma string_length_app (s1 s2 : string) :
  String.length (s1 ++ s2) = (String.length s1 + String.length s2)%nat.
Proof. induction s1 as [|c s1 IH]; cbn; congruence. Qed.

(** X18: whatever the two helpers answer, [formatNonce] returns [0x], then
    zeros, then the digits of the nonce, with as many zeros as the digits
    fall short of 16: 18 characters when the digits are at most 16, and
    more, the digits being kept whole, when they are more.  The empty nonce
    and [0x0] give 16 zeros.  The nonce [parseGethParams] keeps is therefore
    never shorter than 18 characters. *)
Theorem formatNonce_shape isHexPrefixed stripHexPrefix nonce :
  let digits := nonceDigits isHexPrefixed stripHexPrefix nonce in
  let formatted := formatNonce isHexPrefixed stripHexPrefix nonce in
  formatted = ("0x" ++ replicate (16 - String.length digits) "0" ++ digits)%string /\
  String.length formatted = (2 + Nat.max 16 (String.length digits))%nat /\
  (18 <= String.length (genesisNonce isHexPrefixed stripHexPrefix nonce))%nat.
Proof.
  intros digits formatted.
  assert (Hshape : formatted
            = ("0x" ++ replicate (16 - String.length digits) "0" ++ digits)%string).
  { subst digits formatted. unfold formatNonce, nonceDigits, padStart.
    destruct (String.eqb nonce "" || String.eqb nonce "0x0"); [reflexivity|].
    destruct (isHexPrefixed nonce); reflexivity. }
  assert (Hlen : String.length formatted = (2 + Nat.max 16 (String.length digits))%nat).
  { rewrite Hshape. cbn [String.append String.length].
    rewrite string_length_app, replicate_length. lia. }
  split; [exact Hshape|]. split; [exact Hlen|].
  unfold genesisNonce. destruct (Nat.eqb (String.length nonce) 18) eqn:H18.
  - apply Nat.eqb_eq in H18. lia.
  - fold formatted. lia.
Qed.

End GethGenesisFacts.

(** * Properties of the constants *)
Module ConstantsFacts.
Import Constants.

(** X19: the integer constants have the values their comments give:
    [MAX_UINT64] is 2^64-1, [MAX_INTEGER] and [MAX_INTEGER_BIGINT] are
    2^256-1, and [TWO_POW256] is 2^256, one more than [MAX_INTEGER]. *)
Theorem integer_constants :
  MAX_UINT64 = 2 ^ 64 - 1 /\
  MAX_INTEGER = 2 ^ 256 - 1 /\
  MAX_INTEGER_BIGINT = 2 ^ 256 - 1 /\
  TWO_POW256 = 2 ^ 256 /\
  TWO_POW256 = MAX_INTEGER + 1.
Proof. repeat split; vm_compute; reflexivity. Qed.

End ConstantsFacts.

(** * The fork schedule on examples *)
Module GethExamples.
Import GethGenesis.
Local Open Scope string_scope.
Local Open Scope list_scope.

(** The schedule of [sampleConfig]: [berlinBlock] is [null] and
    [eip158Block] is no fork field, so neither appears; the merge goes
    before Shanghai. *)
Example sample_schedule :
  hardforks true sampleConfig =
  [ mkHardfork Chainstart (Some 0) None;
    mkHardfork Homestead (Some 0) None;
    mkHardfork TangerineWhistle (Some 0) None;
    mkHardfork SpuriousDragon (Some 0) None;
    mkHardfork London (Some 10) None;
    mkHardfork Merge None (Some (Some 5000));
    mkHardfork Shanghai (Some 20) None ].
Proof. vm_compute. reflexivity. Qed.

(** A fork that needs the merge at genesis: the merge comes right after the
    genesis forks. *)
Example merge_just_post_genesis :
  hardforks true
    [("shanghaiBlock", Some 0); ("londonBlock", Some 5); ("homesteadBlock", Some 0);
     ("terminalTotalDifficulty", Some 0)] =
  [ mkHardfork Chainstart (Some 0) None;
    mkHardfork Shanghai (Some 0) None;
    mkHardfork Homestead (Some 0) None;
    mkHardfork Merge None (Some (Some 0));
    mkHardfork London (Some 5) None ].
Proof. vm_compute. reflexivity. Qed.

Lemma fork_scheduled_iff_witness :
  forkMapRev true "londonBlock" = Some London /\
  lookup "londonBlock" sampleConfig = Some (Some 10) /\
  In (mkHardfork London (Some 10) None) (hardforks true sampleConfig) /\
  ~ In (mkHardfork Berlin (Some 0) None) (hardforks true sampleConfig).
Proof.
  destruct (GethGenesisFacts.fork_scheduled_iff true sampleConfig London 10) as [_ Hin].
  destruct (GethGenesisFacts.fork_scheduled_iff true sampleConfig Berlin 0) as [Hout _].
  split; [reflexivity|]. split; [reflexivity|]. split.
  - apply Hin. right. exists "londonBlock". split; reflexivity.
  - intros H. vm_compute in H. intuition discriminate.
Defined.

Lemma schedule_sorted_by_block_witness :
  (forall key b, lookup key sampleConfig = Some (Some b) -> 0 <= b) /\
  exists sorted,
    List.filter (fun hf => negb (bool_decide (name hf = Merge))) (hardforks true sampleConfig)
      = mkHardfork Chainstart (Some 0) None :: sorted /\
    StronglySorted blockLe (mkHardfork Chainstart (Some 0) None :: sorted).
Proof.
  assert (Hpos : forall key b, lookup key sampleConfig = Some (Some b) -> 0 <= b).
  { intros key b. unfold sampleConfig. cbn [lookup].
    repeat match goal with
           | |- context [String.eqb ?a key] => destruct (String.eqb a key)
           end; intros H; inversion H; lia. }
  split; [exact Hpos|].
  destruct (GethGenesisFacts.schedule_sorted_by_block true sampleConfig)
    as (sorted & Hfilter & _ & _ & Hall).
  exists sorted. split; [exact Hfilter|exact (Hall Hpos)].
Defined.

Lemma merge_entry_witness :
  lookup "terminalTotalDifficulty" sampleConfig = Some (Some 5000) /\
  exists first before after,
    hardforks true sampleConfig =
      (first :: before) ++ mkHardfork Merge None (Some (Some 5000)) :: after /\
    (first :: before) ++ after = blockForks true sampleConfig /\
    Forall (fun hf => name hf <> Merge) ((first :: before) ++ after).
Proof.
  destruct (GethGenesisFacts.merge_entry true sampleConfig) as [_ Hmerge].
  split; [reflexivity|]. exact (Hmerge (Some 5000) eq_refl).
Defined.

Lemma merge_placement_witness :
  lookup "terminalTotalDifficulty" sampleConfig = Some (Some 5000) /\
  exists before after,
    hardforks true sampleConfig = before ++ mkHardfork Merge None (Some (Some 5000)) :: after /\
    Forall (fun hf => afterGenesis hf = true) after /\
    Forall (fun hf => afterGenesis hf = true -> postMerge true (name hf) = false) before.
Proof.
  split; [reflexivity|].
  destruct (GethGenesisFacts.merge_placement true sampleConfig (Some 5000) eq_refl)
    as (before & after & Heq & Hafter & Hbefore & _).
  exists before, after. auto.
Defined.

(** Nonces as Geth writes them. *)
Example formatNonce_examples :
  formatNonce startsWith0x without0x "0x42" = "0x0000000000000042" /\
  formatNonce startsWith0x without0x "42" = "0x0000000000000042" /\
  formatNonce startsWith0x without0x "0x0" = "0x0000000000000000" /\
  formatNonce startsWith0x without0x "" = "0x0000000000000000" /\
  formatNonce startsWith0x without0x "0x0123456789abcdef01" = "0x0123456789abcdef01" /\
  genesisNonce startsWith0x without0x "0x0000000000000042" = "0x0000000000000042".
Proof. repeat split; vm_compute; reflexivity. Qed.

End GethExamples.
